(** * Metalink plugin (plugins/experimental/metalink/metalink.cc)

    A shallow embedding of the Traffic Server Metalink plugin: the body
    transform that digests a response with SHA-256 and records
    digest -> request URL in the cache, and the send-response path that
    looks the Location URL and the announced digest up in the cache and
    rewrites the Location header.

    The plugin is written against the Traffic Server C API.  Calls with an
    effect are recorded in a trace; the answers of the proxy are the fields
    of a [Host] record, so every statement holds for every proxy. *)

From Stdlib Require Import ZArith List String Ascii Bool Lia.
From Stdlib Require Import Strings.Byte.
Import ListNotations.

Local Open Scope Z_scope.

(** ** The message digest: SHA-256 as used through SHA256_Init,
    SHA256_Update and SHA256_Final *)

Module SHA256.

(** Modelled from the spec: the ContentDigester (init, update, finalize) is
    OpenSSL's SHA256_Init / SHA256_Update / SHA256_Final, declared in
    <openssl/sha.h> and not among the sources.  The model is SHA-256 of
    FIPS 180-4 with the context layout and the buffering of the incremental
    interface: eight 32-bit chaining words, a 64-bit bit counter kept as two
    32-bit halves, and the pending bytes of a partial 64-byte block. *)

Definition SHA_CBLOCK : Z := 64.

Definition w32 (z : Z) : Z := z mod 2 ^ 32.

Definition add32 (a b : Z) : Z := w32 (a + b).

Definition ROTR (n x : Z) : Z := Z.lor (Z.shiftr x n) (w32 (Z.shiftl x (32 - n))).

Definition SHR (n x : Z) : Z := Z.shiftr x n.

Definition Ch (x y z : Z) : Z := Z.lxor (Z.land x y) (Z.land (Z.lxor x 0xffffffff) z).

Definition Maj (x y z : Z) : Z :=
  Z.lxor (Z.lxor (Z.land x y) (Z.land x z)) (Z.land y z).

Definition Sigma0 (x : Z) : Z := Z.lxor (Z.lxor (ROTR 2 x) (ROTR 13 x)) (ROTR 22 x).
Definition Sigma1 (x : Z) : Z := Z.lxor (Z.lxor (ROTR 6 x) (ROTR 11 x)) (ROTR 25 x).
Definition sigma0 (x : Z) : Z := Z.lxor (Z.lxor (ROTR 7 x) (ROTR 18 x)) (SHR 3 x).
Definition sigma1 (x : Z) : Z := Z.lxor (Z.lxor (ROTR 17 x) (ROTR 19 x)) (SHR 10 x).

(** The round constants K256[0..63]: the first 32 bits of the fractional
    parts of the cube roots of the first 64 primes. *)
Definition is_prime (n : nat) : bool :=
  forallb (fun d => negb (Nat.eqb (Nat.modulo n d) 0)) (seq 2 (n - 2)).

Definition primes_to_311 : list nat := filter is_prime (seq 2 310).

(** The integer cube root, bit by bit from the top. *)
Fixpoint cube_root_bits (bits : nat) (n r : Z) : Z :=
  match bits with
  | O => r
  | S b =>
      let t := r + 2 ^ Z.of_nat b in
      cube_root_bits b n (if t * t * t <=? n then t else r)
  end.

Definition K256 : list Z :=
  Eval vm_compute in
    map (fun p => w32 (cube_root_bits 36 (Z.of_nat p * 2 ^ 96) 0)) primes_to_311.

Definition byte_val (b : byte) : Z := Z.of_N (Byte.to_N b).

Definition byte_of_Z (z : Z) : byte :=
  match Byte.of_N (Z.to_N (z mod 256)) with
  | Some b => b
  | None => x00
  end.

(** HOST_c2l: four bytes, most significant first, to a 32-bit word. *)
Definition HOST_c2l (bs : list byte) : Z :=
  fold_left (fun acc b => acc * 256 + byte_val b) (firstn 4 bs) 0.

(** HOST_l2c: a 32-bit word to four bytes, most significant first. *)
Definition HOST_l2c (l : Z) : list byte :=
  [ byte_of_Z (Z.shiftr l 24); byte_of_Z (Z.shiftr l 16);
    byte_of_Z (Z.shiftr l 8); byte_of_Z l ].

(** The sixteen words of a block; a block shorter than 64 bytes reads as
    zero-padded (the callers below always pass 64 bytes). *)
Fixpoint load_words (n : nat) (bs : list byte) : list Z :=
  match n with
  | O => []
  | S n' => HOST_c2l (firstn 4 (bs ++ [x00; x00; x00; x00])) :: load_words n' (skipn 4 bs)
  end.

(** The message schedule, newest word first: [extend n w] adds n words to
    the reversed schedule w, each from the words 2, 7, 15 and 16 back. *)
Fixpoint extend (n : nat) (w : list Z) : list Z :=
  match n with
  | O => w
  | S n' =>
      let x := add32 (add32 (sigma1 (nth 1 w 0)) (nth 6 w 0))
                     (add32 (sigma0 (nth 14 w 0)) (nth 15 w 0)) in
      extend n' (x :: w)
  end.

Definition schedule (block : list byte) : list Z :=
  rev (extend 48 (rev (load_words 16 block))).

(** The working variables a .. h. *)
Record Vars := mkVars { va : Z; vb : Z; vc : Z; vd : Z; ve : Z; vf : Z; vg : Z; vh : Z }.

Definition round (v : Vars) (kw : Z * Z) : Vars :=
  let T1 := add32 (add32 (add32 (add32 (vh v) (Sigma1 (ve v))) (Ch (ve v) (vf v) (vg v))) (fst kw)) (snd kw) in
  let T2 := add32 (Sigma0 (va v)) (Maj (va v) (vb v) (vc v)) in
  mkVars (add32 T1 T2) (va v) (vb v) (vc v) (add32 (vd v) T1) (ve v) (vf v) (vg v).

Definition vars_of (h : list Z) : Vars :=
  mkVars (nth 0 h 0) (nth 1 h 0) (nth 2 h 0) (nth 3 h 0)
         (nth 4 h 0) (nth 5 h 0) (nth 6 h 0) (nth 7 h 0).

(** One 64-byte block folded into the chaining value. *)
Definition compress (h : list Z) (block : list byte) : list Z :=
  let v0 := vars_of h in
  let v := fold_left round (combine K256 (schedule block)) v0 in
  [ add32 (va v0) (va v); add32 (vb v0) (vb v); add32 (vc v0) (vc v); add32 (vd v0) (vd v);
    add32 (ve v0) (ve v); add32 (vf v0) (vf v); add32 (vg v0) (vg v); add32 (vh v0) (vh v) ].

(** sha256_block_data_order(c, in, num): num consecutive blocks of [input]. *)
Fixpoint sha256_block_data_order (h : list Z) (input : list byte) (num : nat) : list Z :=
  match num with
  | O => h
  | S n => sha256_block_data_order (compress h (firstn 64 input)) (skipn 64 input) n
  end.

(** SHA256_CTX.  [data] holds the [num] pending bytes of the block buffer
    (the bytes of the C array beyond num are never read). *)
Record SHA256_CTX := mkCtx {
  h : list Z;
  Nl : Z;
  Nh : Z;
  data : list byte
}.

Definition num (c : SHA256_CTX) : Z := Z.of_nat (List.length (data c)).

(** Modelled from the spec: init() resets the state (SHA256_Init). *)
Definition SHA256_Init : SHA256_CTX :=
  mkCtx [ 0x6a09e667; 0xbb67ae85; 0x3c6ef372; 0xa54ff53a;
          0x510e527f; 0x9b05688c; 0x1f83d9ab; 0x5be0cd19 ] 0 0 [].

(** Modelled from the spec: update(bytes) folds one chunk into the running
    hash (SHA256_Update(c, data_, len)): count the bits, top up a partial
    block, run the whole blocks, keep the tail. *)
Definition SHA256_Update (c : SHA256_CTX) (data_ : list byte) : SHA256_CTX :=
  let len := Z.of_nat (List.length data_) in
  if len =? 0 then c else
  let l := w32 (Nl c + w32 (Z.shiftl (w32 len) 3)) in
  let Nh1 := if l <? Nl c then w32 (Nh c + 1) else Nh c in
  let Nh2 := w32 (Nh1 + w32 (Z.shiftr len 29)) in
  let n := num c in
  if negb (n =? 0) then
    if (len >=? SHA_CBLOCK) || (len + n >=? SHA_CBLOCK) then
      let fill := Z.to_nat (SHA_CBLOCK - n) in
      let h1 := sha256_block_data_order (h c) (data c ++ firstn fill data_) 1 in
      let rest := skipn fill data_ in
      let nblocks := Z.to_nat (Z.of_nat (List.length rest) / SHA_CBLOCK) in
      let h2 := sha256_block_data_order h1 rest nblocks in
      mkCtx h2 l Nh2 (skipn (nblocks * 64) rest)
    else
      mkCtx (h c) l Nh2 (data c ++ data_)
  else
    let nblocks := Z.to_nat (len / SHA_CBLOCK) in
    let h2 := sha256_block_data_order (h c) data_ nblocks in
    mkCtx h2 l Nh2 (skipn (nblocks * 64) data_).

(** Modelled from the spec: finalize() returns the 32-byte digest
    (SHA256_Final(md, c)): pad with 0x80 and zeros, append the bit count,
    run the last block(s), and write the eight words out. *)
Definition SHA256_Final (c : SHA256_CTX) : list byte :=
  let p := data c ++ [x80] in
  let n := Z.of_nat (List.length p) in
  let '(h1, p1) :=
    if n >? SHA_CBLOCK - 8
    then (sha256_block_data_order (h c) (p ++ repeat x00 (Z.to_nat (SHA_CBLOCK - n))) 1, [])
    else (h c, p) in
  let n1 := Z.of_nat (List.length p1) in
  let block := p1 ++ repeat x00 (Z.to_nat (SHA_CBLOCK - 8 - n1))
                  ++ HOST_l2c (Nh c) ++ HOST_l2c (Nl c) in
  let h2 := sha256_block_data_order h1 block 1 in
  flat_map (fun nn => HOST_l2c (nth nn h2 0)) (seq 0 8).

End SHA256.


(** ** The Traffic Server API seen from the plugin *)

Local Open Scope string_scope.
Local Open Scope list_scope.

(** The events the plugin's handlers switch on, and the other VConn events
    the proxy can deliver. *)
Inductive TSEvent : Type :=
| TS_EVENT_IMMEDIATE
| TS_EVENT_ERROR
| TS_EVENT_VCONN_READ_READY
| TS_EVENT_VCONN_WRITE_READY
| TS_EVENT_VCONN_READ_COMPLETE
| TS_EVENT_VCONN_WRITE_COMPLETE
| TS_EVENT_VCONN_EOS
| TS_EVENT_CACHE_OPEN_READ
| TS_EVENT_CACHE_OPEN_READ_FAILED
| TS_EVENT_CACHE_OPEN_WRITE
| TS_EVENT_CACHE_OPEN_WRITE_FAILED
| TS_EVENT_HTTP_READ_RESPONSE_HDR
| TS_EVENT_HTTP_SEND_RESPONSE_HDR.

(** A parsed URL object (what a url_loc refers to), kept as text. *)
Definition Url : Type := string.

(** What a cache key has been set to: nothing yet, the digest the proxy
    derives from a URL (TSCacheKeyDigestFromUrlSet), or raw digest bytes
    (TSCacheKeyDigestSet). *)
Inductive KeyDigest : Type :=
| KeyUnset
| KeyOfUrl (u : Url)
| KeyOfDigest (d : list byte).

Record TSCacheKey := mkKey { key_id : nat; key_digest : KeyDigest }.

(** A cache vconnection; a read vconnection delivers the stored value as
    a first block and the blocks after it. *)
Record TSVConn := mkVConn { vc_id : nat; vc_first : string; vc_more : list string }.

(** The header handles the plugin acquires and releases. *)
Inductive TSMLoc : Type :=
| hdr_loc
| location_loc
| url_loc
| digest_loc (field : nat)
| req_hdr_loc
| req_url_loc.

(** The continuations of the send path, by handler function. *)
Inductive Handler : Type := Location_handler | Digest_handler | Rewrite_handler.

(** The three kinds of continuation the plugin creates: the one a stage of
    the send path waits on, the transform, and the one of the cache write. *)
Inductive TSCont : Type := Send_contp | Transform_contp | Write_contp.

(** SendData, without the handles that are fixed for a transaction (txnp,
    resp_bufp, hdr_loc, location_loc); [url] is the content of the URL
    object behind url_loc, [digest_field] the Digest field digest_loc points
    at, counted from the first. *)
Record SendData := mkSendData {
  url : Url;
  key : TSCacheKey;
  digest_field : nat;
  idx : nat;
  read_bufp : bool
}.

(** The asynchronous operation a continuation waits for. *)
Inductive Op : Type :=
| NoOp
| OpCacheRead (k : KeyDigest)
| OpVConnRead (connp : TSVConn).

Record Cont := mkCont { cont_handler : Handler; cont_data : SendData; awaiting : Op }.

(** API calls with an effect, as recorded in the trace. *)
Inductive Call : Type :=
| Call_TSmalloc
| Call_TSfree
| Call_TSLogError (msg : string)
| Call_TSHttpTxnReenable
| Call_TSHandleMLocRelease (loc : TSMLoc)
| Call_TSUrlCreate
| Call_TSCacheKeyCreate (id : nat)
| Call_TSCacheKeyDestroy (id : nat)
| Call_TSContCreate (contp : TSCont)
| Call_TSContDestroy (contp : TSCont)
| Call_TSCacheRead (h : Handler) (k : KeyDigest)
| Call_TSCacheWrite (k : KeyDigest)
| Call_TSIOBufferCreate
| Call_TSIOBufferDestroy
| Call_TSVConnRead (connp : TSVConn)
| Call_TSVConnWrite (connp : nat) (payload : string)
| Call_TSVConnClose (connp : nat)
| Call_TSMimeHdrFieldValuesClear
| Call_TSMimeHdrFieldValueStringInsert (value : string)
| Call_TSTransformOutputWrite
| Call_TSVIONBytesSet (n : Z)
| Call_TSVIOReenable
| Call_TSContCall (e : TSEvent)
| Call_TSVConnShutdown
| Call_TSHttpTxnHookAdd.

(** The proxy's side of the API: the answers the plugin branches on.
    [DEBUG] says whether TSAssert is compiled in (it aborts in a debug
    build and does nothing otherwise); [cache] is what a TSCacheRead finds
    under a key. *)
Record Host := mkHost {
  DEBUG : bool;
  ClientRespGet : bool;
  UrlParse : string -> option Url;
  UrlStringGet : Url -> string;
  CacheKeyDigestFromUrlSet : Url -> bool;
  Base64Decode : string -> option (list byte);
  CacheKeyDigestSet : list byte -> bool;
  ClientReqGet : bool;
  HdrUrlGet : bool;
  ReqUrlStringGet : option string;
  cache : KeyDigest -> option (string * list string)
}.

(** The mutable world: the client response's Location field (None when
    the field is absent) and its Digest fields with their values, the trace
    (newest call first), the next fresh key handle, and the send path's live
    continuation. *)
Record World := mkWorld {
  resp_location : option (list string);
  resp_digest : list (list string);
  trace : list Call;
  next_key : nat;
  cont : option Cont
}.

Definition init_world (location : option (list string)) (digest : list (list string)) : World :=
  mkWorld location digest [] 0%nat None.

(** *** A state monad with abort *)

Inductive Outcome (A : Type) : Type :=
| Ok (a : A) (w : World)
| Abort (w : World).

Arguments Ok {A} a w.
Arguments Abort {A} w.

Definition M (A : Type) : Type := World -> Outcome A.

Definition ret {A : Type} (a : A) : M A := fun w => Ok a w.

Definition bind {A B : Type} (m : M A) (k : A -> M B) : M B :=
  fun w => match m w with
           | Ok a w' => k a w'
           | Abort w' => Abort w'
           end.

Declare Scope api_scope.
Delimit Scope api_scope with api.
Notation "x <- m ;; k" := (bind m (fun x => k))
  (at level 61, m at next level, right associativity) : api_scope.
Notation "m ;; k" := (bind m (fun _ => k))
  (at level 61, right associativity) : api_scope.
Local Open Scope api_scope.

Definition world_of {A : Type} (o : Outcome A) : World :=
  match o with
  | Ok _ w => w
  | Abort w => w
  end.

Definition aborted {A : Type} (o : Outcome A) : bool :=
  match o with
  | Ok _ _ => false
  | Abort _ => true
  end.

Definition call (c : Call) : M unit :=
  fun w => Ok tt (mkWorld (resp_location w) (resp_digest w) (c :: trace w) (next_key w) (cont w)).

Definition set_cont (k : option Cont) : M unit :=
  fun w => Ok tt (mkWorld (resp_location w) (resp_digest w) (trace w) (next_key w) k).

Definition set_location (l : option (list string)) : M unit :=
  fun w => Ok tt (mkWorld l (resp_digest w) (trace w) (next_key w) (cont w)).

Definition abort {A : Type} : M A := fun w => Abort w.

(** *** The calls *)

Definition TSmalloc : M unit := call Call_TSmalloc.
Definition TSfree : M unit := call Call_TSfree.
Definition TSLogError (msg : string) : M unit := call (Call_TSLogError msg).
Definition TSHttpTxnReenable : M unit := call Call_TSHttpTxnReenable.
Definition TSHandleMLocRelease (loc : TSMLoc) : M unit := call (Call_TSHandleMLocRelease loc).
Definition TSUrlCreate : M unit := call Call_TSUrlCreate.
Definition TSIOBufferCreate : M unit := call Call_TSIOBufferCreate.
Definition TSIOBufferDestroy : M unit := call Call_TSIOBufferDestroy.

Definition TSCacheKeyCreate : M TSCacheKey :=
  fun w => Ok (mkKey (next_key w) KeyUnset)
              (mkWorld (resp_location w) (resp_digest w)
                       (Call_TSCacheKeyCreate (next_key w) :: trace w) (S (next_key w)) (cont w)).

Definition TSCacheKeyDestroy (k : TSCacheKey) : M unit := call (Call_TSCacheKeyDestroy (key_id k)).

(** TSContCreate(handler, NULL) followed by TSContDataSet(contp, data). *)
Definition TSContCreate (handler : Handler) (data : SendData) : M unit :=
  call (Call_TSContCreate Send_contp) ;; set_cont (Some (mkCont handler data NoOp)).

Definition TSContDestroy (contp : TSCont) : M unit :=
  call (Call_TSContDestroy contp) ;;
  match contp with
  | Send_contp => set_cont None
  | _ => ret tt
  end.

(** An assignment through the data pointer the live continuation holds. *)
Definition store (data : SendData) (op : Op) : M unit :=
  fun w => match cont w with
           | Some c => set_cont (Some (mkCont (cont_handler c) data op)) w
           | None => Ok tt w
           end.

(** TSCacheRead(contp, key): the open-for-read is outstanding on contp. *)
Definition TSCacheRead (handler : Handler) (data : SendData) : M unit :=
  call (Call_TSCacheRead handler (key_digest (key data))) ;;
  store data (OpCacheRead (key_digest (key data))).

(** TSVConnRead(connp, contp, data->read_bufp, INT64_MAX). *)
Definition TSVConnRead (connp : TSVConn) (data : SendData) : M unit :=
  call (Call_TSVConnRead connp) ;; store data (OpVConnRead connp).

(** TSMimeHdrFieldValuesClear on the Location field. *)
Definition TSMimeHdrFieldValuesClear : M unit :=
  call Call_TSMimeHdrFieldValuesClear ;;
  fun w => match resp_location w with
           | Some _ => set_location (Some []) w
           | None => Ok tt w
           end.

(** TSMimeHdrFieldValueStringInsert(..., location_loc, -1, value, length):
    the value is appended. *)
Definition TSMimeHdrFieldValueStringInsert (value : string) : M unit :=
  call (Call_TSMimeHdrFieldValueStringInsert value) ;;
  fun w => match resp_location w with
           | Some values => set_location (Some (values ++ [value])) w
           | None => Ok tt w
           end.

(** TSMimeHdrFieldValueStringGet on a field's values; the empty string
    stands for a value that is not there. *)
Definition TSMimeHdrFieldValueStringGet (values : list string) (i : nat) : string :=
  nth i values EmptyString.

(** *** C library *)

Definition tolower (c : ascii) : ascii :=
  let n := nat_of_ascii c in
  if (65 <=? n)%nat && (n <=? 90)%nat then ascii_of_nat (n + 32) else c.

Definition char_at (s : string) : ascii :=
  match s with
  | EmptyString => zero
  | String c _ => c
  end.

Definition string_tail (s : string) : string :=
  match s with
  | EmptyString => EmptyString
  | String _ t => t
  end.

(** strncasecmp(s1, s2, n); the end of a string reads as NUL. *)
Fixpoint strncasecmp (s1 s2 : string) (n : nat) : Z :=
  match n with
  | O => 0
  | S n' =>
      let c1 := tolower (char_at s1) in
      let c2 := tolower (char_at s2) in
      if negb (Ascii.eqb c1 c2) then Z.of_nat (nat_of_ascii c1) - Z.of_nat (nat_of_ascii c2)
      else if Ascii.eqb c1 zero then 0
      else strncasecmp (string_tail s1) (string_tail s2) n'
  end.

(** value + n *)
Fixpoint string_drop (n : nat) (s : string) : string :=
  match n with
  | O => s
  | S n' => string_drop n' (string_tail s)
  end.

Definition strlen (s : string) : Z := Z.of_nat (String.length s).

(** ** The send-response path *)

Section SendPath.

Variable host : Host.

(** TSAssert(!"Unexpected event") *)
Definition TSAssert_unexpected_event : M unit :=
  if DEBUG host then abort else ret tt.

(** The releases and the resume every terminal branch ends with, after the
    key is gone. *)
Definition release_and_reenable : M unit :=
  TSHandleMLocRelease url_loc ;;
  TSHandleMLocRelease location_loc ;;
  TSHandleMLocRelease hdr_loc ;;
  TSHttpTxnReenable ;;
  TSfree.

Definition rewrite_handler (data : SendData) (event : TSEvent) : M unit :=
  TSContDestroy Send_contp ;;
  match event with
  (* Yes: Rewrite "Location: ..." header and reenable response *)
  | TS_EVENT_CACHE_OPEN_READ =>
      let value := UrlStringGet host (url data) in
      TSMimeHdrFieldValuesClear ;;
      TSMimeHdrFieldValueStringInsert value
  | TS_EVENT_CACHE_OPEN_READ_FAILED => ret tt
  | _ => TSAssert_unexpected_event
  end ;;
  TSCacheKeyDestroy (key data) ;;
  release_and_reenable.

Definition cache_open_read (data : SendData) (connp : TSVConn) : M unit :=
  TSIOBufferCreate ;;
  let data := mkSendData (url data) (key data) (digest_field data) (idx data) true in
  TSVConnRead connp data.

Definition cache_open_read_failed (data : SendData) : M unit :=
  TSContDestroy Send_contp ;;
  TSCacheKeyDestroy (key data) ;;
  release_and_reenable.

(** [blocks] are the blocks of data->read_bufp the reader allocated here
    sees; the handler looks at the first one only.  With no block at all
    TSIOBufferBlockReadStart is handed a null block and the API stops the
    process. *)
Definition vconn_read_ready (data : SendData) (blocks : list string) : M unit :=
  TSContDestroy Send_contp ;;
  match blocks with
  | [] => abort
  | value :: _ =>
      match UrlParse host value with
      | None =>
          TSIOBufferDestroy ;;
          TSCacheKeyDestroy (key data) ;;
          release_and_reenable
      | Some u =>
          TSIOBufferDestroy ;;
          if negb (CacheKeyDigestFromUrlSet host u) then
            TSCacheKeyDestroy (key data) ;;
            release_and_reenable
          else
            let data := mkSendData u (mkKey (key_id (key data)) (KeyOfUrl u))
                                   (digest_field data) (idx data) (read_bufp data) in
            TSContCreate Rewrite_handler data ;;
            TSCacheRead Rewrite_handler data
      end
  end.

(* Does the "Digest: SHA-256=..." digest already exist in cache? *)
Definition digest_handler (data : SendData) (event : TSEvent)
    (edata : TSVConn) (blocks : list string) : M unit :=
  match event with
  | TS_EVENT_CACHE_OPEN_READ => cache_open_read data edata
  | TS_EVENT_CACHE_OPEN_READ_FAILED => cache_open_read_failed data
  | TS_EVENT_VCONN_READ_READY => vconn_read_ready data blocks
  | _ => TSAssert_unexpected_event
  end.

(* Does the "Location: ..." URL already exist in cache? *)
(** The decoder fills char digest[33]; the key is set from its first 32
    bytes (bytes the decoder did not write are not modelled). *)
Definition location_handler (data : SendData) (event : TSEvent) : M unit :=
  TSContDestroy Send_contp ;;
  returned <-
    match event with
    (* Yes: Do nothing, just reenable response *)
    | TS_EVENT_CACHE_OPEN_READ => ret false
    (* No: look at the "Digest: SHA-256=..." digest *)
    | TS_EVENT_CACHE_OPEN_READ_FAILED =>
        fun w =>
        let value :=
          TSMimeHdrFieldValueStringGet (nth (digest_field data) (resp_digest w) []) (idx data) in
        match Base64Decode host (string_drop 8 value) with
        | None => ret false w
        | Some digest =>
            if negb (CacheKeyDigestSet host (firstn 32 digest)) then ret false w
            else
              let data := mkSendData (url data)
                            (mkKey (key_id (key data)) (KeyOfDigest (firstn 32 digest)))
                            (digest_field data) (idx data) (read_bufp data) in
              (TSContCreate Digest_handler data ;;
               TSCacheRead Digest_handler data ;;
               TSHandleMLocRelease (digest_loc (digest_field data)) ;;
               ret true) w
        end
    | _ => TSAssert_unexpected_event ;; ret false
    end ;;
  if returned : bool then ret tt
  else
    TSHandleMLocRelease (digest_loc (digest_field data)) ;;
    TSCacheKeyDestroy (key data) ;;
    release_and_reenable.

(** The test of the for loop that makes it continue with the next value:
    length < 8 + 44 || strncasecmp(value, "SHA-256=", 8). *)
Definition skipped (value : string) : bool :=
  (strlen value <? 8 + 44 (* 32 bytes, Base64 *))%Z
  || negb (strncasecmp value "SHA-256=" 8 =? 0)%Z.

(** The for loop over the values of one Digest field: the index of the
    first value that is long enough and starts with SHA-256=. *)
Fixpoint scan_values (values : list string) (i : nat) : option nat :=
  match values with
  | [] => None
  | value :: rest =>
      if skipped value then scan_values rest (S i) else Some i
  end.

(** The while loop over the duplicate Digest fields; a field without a
    candidate is released before the next one is looked at. *)
Fixpoint scan_fields (fields : list (list string)) (field : nat) : M (option (nat * nat)) :=
  match fields with
  | [] => ret None
  | values :: next =>
      match scan_values values 0 with
      | Some i => ret (Some (field, i))
      | None =>
          TSHandleMLocRelease (digest_loc field) ;;
          scan_fields next (S field)
      end
  end.

Definition http_send_response_hdr : M unit :=
  TSmalloc ;;
  if negb (ClientRespGet host) then
    TSLogError "Couldn't retrieve client response header" ;;
    TSHttpTxnReenable ;;
    TSfree
  else
  fun w =>
  (* If response has "Location: ..." header *)
  match resp_location w with
  | None =>
      (TSHandleMLocRelease hdr_loc ;;
       TSHttpTxnReenable ;;
       TSfree) w
  | Some location_values =>
      (TSUrlCreate ;;
       let value := TSMimeHdrFieldValueStringGet location_values 0 in
       match UrlParse host value with
       | None => release_and_reenable
       | Some u =>
           k <- TSCacheKeyCreate ;;
           if negb (CacheKeyDigestFromUrlSet host u) then
             TSCacheKeyDestroy k ;;
             release_and_reenable
           else
             (* ... and "Digest: SHA-256=..." header *)
             found <- scan_fields (resp_digest w) 0 ;;
             match found with
             | Some (field, i) =>
                 let data := mkSendData u (mkKey (key_id k) (KeyOfUrl u)) field i false in
                 TSContCreate Location_handler data ;;
                 TSCacheRead Location_handler data
             | None =>
                 TSCacheKeyDestroy k ;;
                 release_and_reenable
             end
       end) w
  end.

(** An event as the proxy delivers it to the live continuation: the event,
    its edata when that is a vconnection, and what the read buffer holds. *)
Record HostEvent := mkEvent { ev : TSEvent; edata : TSVConn; readable : list string }.

Definition deliver (e : HostEvent) : M unit :=
  fun w =>
    match cont w with
    | None => Ok tt w
    | Some c =>
        match cont_handler c with
        | Location_handler => location_handler (cont_data c) (ev e) w
        | Digest_handler => digest_handler (cont_data c) (ev e) (edata e) (readable e) w
        | Rewrite_handler => rewrite_handler (cont_data c) (ev e) w
        end
    end.

Fixpoint deliver_all (evs : list HostEvent) : M unit :=
  match evs with
  | [] => ret tt
  | e :: rest => deliver e ;; deliver_all rest
  end.

(** TS_EVENT_HTTP_SEND_RESPONSE_HDR, then the events the proxy delivers. *)
Definition run (evs : list HostEvent) : M unit :=
  http_send_response_hdr ;; deliver_all evs.

(** A proxy that answers every outstanding operation: a cache read opens
    or fails as [cache] says, a vconnection read delivers the stored value. *)
Definition proxy_answer (w : World) : option HostEvent :=
  match cont w with
  | None => None
  | Some c =>
      match awaiting c with
      | NoOp => None
      | OpCacheRead k =>
          match cache host k with
          | Some (first, more) =>
              Some (mkEvent TS_EVENT_CACHE_OPEN_READ (mkVConn 0 first more) [])
          | None =>
              Some (mkEvent TS_EVENT_CACHE_OPEN_READ_FAILED (mkVConn 0 EmptyString []) [])
          end
      | OpVConnRead connp =>
          Some (mkEvent TS_EVENT_VCONN_READ_READY connp (vc_first connp :: vc_more connp))
      end
  end.

Definition serve_step : M unit :=
  fun w => match proxy_answer w with
           | Some e => deliver e w
           | None => Ok tt w
           end.

Fixpoint serve_steps (n : nat) : M unit :=
  match n with
  | O => ret tt
  | S n' => serve_step ;; serve_steps n'
  end.

Definition serve : M unit := http_send_response_hdr ;; serve_steps 4.

End SendPath.

(** *** Observations on a trace *)

Definition is_reenable (c : Call) : bool :=
  match c with Call_TSHttpTxnReenable => true | _ => false end.

Definition is_cache_read (c : Call) : bool :=
  match c with Call_TSCacheRead _ _ => true | _ => false end.

Definition is_digest_read (c : Call) : bool :=
  match c with Call_TSCacheRead _ (KeyOfDigest _) => true | _ => false end.

Definition is_key_create (id : nat) (c : Call) : bool :=
  match c with Call_TSCacheKeyCreate i => Nat.eqb i id | _ => false end.

Definition is_key_destroy (id : nat) (c : Call) : bool :=
  match c with Call_TSCacheKeyDestroy i => Nat.eqb i id | _ => false end.

Definition is_header_write (c : Call) : bool :=
  match c with
  | Call_TSMimeHdrFieldValuesClear => true
  | Call_TSMimeHdrFieldValueStringInsert _ => true
  | _ => false
  end.

Definition count (p : Call -> bool) (w : World) : nat := List.length (filter p (trace w)).

Definition reenables (w : World) : nat := count is_reenable w.

(** The session is over when no continuation is left. *)
Definition finished {A : Type} (o : Outcome A) : bool :=
  match o with
  | Ok _ w => match cont w with None => true | Some _ => false end
  | Abort _ => false
  end.

(** ** The body transform: digest the response, record digest -> URL *)

Module WriteData.
Record t := mk { connp : nat; bufp : string }.
End WriteData.

Module TransformData.
(** [bufp] is None until the output write is set up, then the bytes copied
    downstream so far; [viop] is the length announced on the output VIO;
    [key] is None until TSCacheKeyCreate has run. *)
Record t := mk {
  bufp : option (list byte);
  viop : Z;
  c : SHA256.SHA256_CTX;
  key : option TSCacheKey
}.
End TransformData.

(** The input VIO of the transform: whether it still has a buffer, the
    blocks its reader holds, and its counters. *)
Record VIO := mkVIO {
  vio_buffer : bool;
  vio_blocks : list (list byte);
  vio_ndone : Z;
  vio_nbytes : Z
}.

Definition INT64_MAX : Z := 2 ^ 63 - 1.

(** An int64_t stored into an int. *)
Definition to_int (z : Z) : Z := (z + 2 ^ 31) mod 2 ^ 32 - 2 ^ 31.

(** TSIOBufferReaderAvail: the bytes in the reader's blocks. *)
Definition TSIOBufferReaderAvail (blocks : list (list byte)) : Z :=
  Z.of_nat (List.length (List.concat blocks)).

(** TSIOBufferReaderConsume(readerp, n) on the chain of blocks. *)
Fixpoint TSIOBufferReaderConsume (n : nat) (blocks : list (list byte)) : list (list byte) :=
  match blocks with
  | [] => []
  | b :: rest =>
      if (n <? List.length b)%nat then skipn n b :: rest
      else TSIOBufferReaderConsume (n - List.length b) rest
  end.

(** The loop that feeds the reader's blocks to the message digest:
    one SHA256_Update per block, in order. *)
Definition feed_blocks (c : SHA256.SHA256_CTX) (blocks : list (list byte)) : SHA256.SHA256_CTX :=
  fold_left SHA256.SHA256_Update blocks c.

(** The digest of a body that arrives in several deliveries, each a chain
    of blocks: what SHA256_Final returns after the last one. *)
Definition digest_of_deliveries (deliveries : list (list (list byte))) : list byte :=
  SHA256.SHA256_Final (fold_left feed_blocks deliveries SHA256.SHA256_Init).

Section TransformPath.

Variable host : Host.

Definition write_vconn_write_complete (data : WriteData.t) : M unit :=
  TSContDestroy Write_contp ;;
  (* The object is not committed to the cache until the vconnection is closed. *)
  call (Call_TSVConnClose (WriteData.connp data)) ;;
  TSIOBufferDestroy ;;
  TSfree.

Definition write_handler (data : WriteData.t) (event : TSEvent) : M unit :=
  match event with
  | TS_EVENT_VCONN_WRITE_COMPLETE => write_vconn_write_complete data
  | _ => TSAssert_unexpected_event host
  end.

Definition TSCacheKeyDestroy_opt (k : option TSCacheKey) : M unit :=
  match k with
  | Some k => TSCacheKeyDestroy k
  | None => abort
  end.

(** Returns the data of the write continuation it creates. *)
Definition cache_open_write (transform_data : TransformData.t) (edata : nat) : M WriteData.t :=
  TSCacheKeyDestroy_opt (TransformData.key transform_data) ;;
  TSmalloc ;;
  call (Call_TSContCreate Write_contp) ;;
  TSIOBufferCreate ;;
  if negb (ClientReqGet host) then
    TSLogError "Couldn't retrieve client request header" ;;
    ret (WriteData.mk edata EmptyString)
  else if negb (HdrUrlGet host) then
    TSHandleMLocRelease req_hdr_loc ;;
    ret (WriteData.mk edata EmptyString)
  else
    match ReqUrlStringGet host with
    | None =>
        TSHandleMLocRelease req_url_loc ;;
        TSHandleMLocRelease req_hdr_loc ;;
        ret (WriteData.mk edata EmptyString)
    | Some value =>
        TSHandleMLocRelease req_url_loc ;;
        TSHandleMLocRelease req_hdr_loc ;;
        (* nbytes = TSIOBufferWrite(write_data->bufp, value, length) *)
        call (Call_TSVConnWrite edata value) ;;
        ret (WriteData.mk edata value)
    end.

Definition cache_open_write_failed (data : TransformData.t) : M unit :=
  TSCacheKeyDestroy_opt (TransformData.key data).

Definition vconn_write_ready (data : TransformData.t) (vio : VIO) : M (TransformData.t * VIO) :=
  (* Can't TSVConnWrite() before TS_HTTP_RESPONSE_TRANSFORM_HOOK *)
  data <-
    match TransformData.bufp data with
    | None =>
        TSIOBufferCreate ;;
        call Call_TSTransformOutputWrite ;;
        ret (TransformData.mk (Some []) INT64_MAX SHA256.SHA256_Init (TransformData.key data))
    | Some _ => ret data
    end ;;
  if negb (vio_buffer vio) then
    let ndone := to_int (vio_ndone vio) in
    call (Call_TSVIONBytesSet ndone) ;;
    call Call_TSVIOReenable ;;
    ret (TransformData.mk (TransformData.bufp data) ndone (TransformData.c data)
                          (TransformData.key data), vio)
  else
    let avail := to_int (TSIOBufferReaderAvail (vio_blocks vio)) in
    let '(data, vio) :=
      if (avail >? 0)%Z then
        let copied := firstn (Z.to_nat avail) (List.concat (vio_blocks vio)) in
        let out := match TransformData.bufp data with
                   | Some b => Some (b ++ copied)
                   | None => None
                   end in
        (* Feed content to message digest *)
        let c := feed_blocks (TransformData.c data) (vio_blocks vio) in
        let ndone := to_int (vio_ndone vio) in
        (* TSVIONDoneSet(viop, ndone + avail): the sum of two ints *)
        (TransformData.mk out (TransformData.viop data) c (TransformData.key data),
         mkVIO (vio_buffer vio) (TSIOBufferReaderConsume (Z.to_nat avail) (vio_blocks vio))
               (to_int (ndone + avail)) (vio_nbytes vio))
      else (data, vio) in
    (* If not finished and we copied some content *)
    let ntodo := to_int (vio_nbytes vio - vio_ndone vio) in
    if (ntodo >? 0)%Z then
      if (avail >? 0)%Z then
        call (Call_TSContCall TS_EVENT_VCONN_WRITE_READY) ;;
        call Call_TSVIOReenable ;;
        ret (data, vio)
      else ret (data, vio)
    (* If finished *)
    else
      call (Call_TSContCall TS_EVENT_VCONN_WRITE_COMPLETE) ;;
      let ndone := to_int (vio_ndone vio) in
      call (Call_TSVIONBytesSet ndone) ;;
      call Call_TSVIOReenable ;;
      let digest := SHA256.SHA256_Final (TransformData.c data) in
      k <- TSCacheKeyCreate ;;
      if negb (CacheKeyDigestSet host digest) then
        ret (TransformData.mk (TransformData.bufp data) ndone (TransformData.c data) (Some k), vio)
      else
        let k := mkKey (key_id k) (KeyOfDigest digest) in
        call (Call_TSCacheWrite (key_digest k)) ;;
        ret (TransformData.mk (TransformData.bufp data) ndone (TransformData.c data) (Some k), vio).

Definition transform_vconn_write_complete (data : TransformData.t) : M unit :=
  call Call_TSVConnShutdown ;;
  TSIOBufferDestroy ;;
  TSfree ;;
  TSContDestroy Transform_contp.

(** What a transform event leaves behind: the transform's data (None once
    freed), the input VIO, and the write continuation's data if one was
    created. *)
Record TransformResult := mkResult {
  r_data : option TransformData.t;
  r_vio : VIO;
  r_write : option WriteData.t
}.

Definition transform_handler (data : TransformData.t) (event : TSEvent)
    (edata : nat) (vio : VIO) : M TransformResult :=
  match event with
  | TS_EVENT_CACHE_OPEN_WRITE =>
      wd <- cache_open_write data edata ;;
      ret (mkResult (Some data) vio (Some wd))
  | TS_EVENT_CACHE_OPEN_WRITE_FAILED =>
      cache_open_write_failed data ;;
      ret (mkResult (Some data) vio None)
  | TS_EVENT_IMMEDIATE
  | TS_EVENT_VCONN_WRITE_READY =>
      r <- vconn_write_ready data vio ;;
      ret (mkResult (Some (fst r)) (snd r) None)
  | TS_EVENT_VCONN_WRITE_COMPLETE =>
      transform_vconn_write_complete data ;;
      ret (mkResult None vio None)
  | _ =>
      TSAssert_unexpected_event host ;;
      ret (mkResult (Some data) vio None)
  end.

(* SHA-256 digest of the body, written to the cache with the request URL as value *)
Definition http_read_response_hdr : M TransformData.t :=
  TSmalloc ;;
  call (Call_TSContCreate Transform_contp) ;;
  call Call_TSHttpTxnHookAdd ;;
  TSHttpTxnReenable ;;
  ret (TransformData.mk None 0 SHA256.SHA256_Init None).

End TransformPath.

(** ** An example proxy for concrete runs *)

(** Modelled from the spec: TSBase64Decode lives in the proxy and is not
    among the sources; the spec asks for a base64 decode of a fixed 32-byte
    digest, to exactly 32 raw bytes.  The standard alphabet, = padding at
    the end only, and success only when 32 bytes come out. *)
Definition base64_value (ch : ascii) : option Z :=
  let n := Z.of_nat (nat_of_ascii ch) in
  if (65 <=? n)%Z && (n <=? 90)%Z then Some (n - 65)
  else if (97 <=? n)%Z && (n <=? 122)%Z then Some (n - 97 + 26)
  else if (48 <=? n)%Z && (n <=? 57)%Z then Some (n - 48 + 52)
  else if (n =? 43)%Z then Some 62
  else if (n =? 47)%Z then Some 63
  else None.

Fixpoint all_padding (s : string) : bool :=
  match s with
  | EmptyString => true
  | String ch rest => Ascii.eqb ch "=" && all_padding rest
  end.

Fixpoint sextets (s : string) : option (list Z) :=
  match s with
  | EmptyString => Some []
  | String ch rest =>
      if Ascii.eqb ch "=" then (if all_padding rest then Some [] else None)
      else match base64_value ch, sextets rest with
           | Some v, Some vs => Some (v :: vs)
           | _, _ => None
           end
  end.

Fixpoint bytes_of_sextets (vs : list Z) : option (list byte) :=
  match vs with
  | [] => Some []
  | [_] => None
  | [a; b] => Some [SHA256.byte_of_Z (a * 4 + b / 16)]
  | [a; b; c] => Some [SHA256.byte_of_Z (a * 4 + b / 16); SHA256.byte_of_Z (b * 16 + c / 4)]
  | a :: b :: c :: d :: rest =>
      match bytes_of_sextets rest with
      | Some bs =>
          Some (SHA256.byte_of_Z (a * 4 + b / 16) :: SHA256.byte_of_Z (b * 16 + c / 4)
                :: SHA256.byte_of_Z (c * 64 + d) :: bs)
      | None => None
      end
  end.

(** Modelled from the spec: the decode succeeds when the payload is
    base64 for exactly 32 bytes, and fails otherwise. *)
Definition TSBase64Decode_spec (s : string) : option (list byte) :=
  match sextets s with
  | Some vs =>
      match bytes_of_sextets vs with
      | Some bs => if (List.length bs =? 32)%nat then Some bs else None
      | None => None
      end
  | None => None
  end.

Definition bytes_of_string (s : string) : list byte := list_byte_of_string s.

Fixpoint bytes_eqb (a b : list byte) : bool :=
  match a, b with
  | [], [] => true
  | x :: a', y :: b' => Byte.eqb x y && bytes_eqb a' b'
  | _, _ => false
  end.

Definition KeyDigest_eqb (a b : KeyDigest) : bool :=
  match a, b with
  | KeyUnset, KeyUnset => true
  | KeyOfUrl u, KeyOfUrl v => String.eqb u v
  | KeyOfDigest d, KeyOfDigest e => bytes_eqb d e
  | _, _ => false
  end.

(** A cache as a table from keys to stored values (first block, further
    blocks). *)
Fixpoint cache_lookup (table : list (KeyDigest * (string * list string))) (k : KeyDigest)
  : option (string * list string) :=
  match table with
  | [] => None
  | (k', v) :: rest => if KeyDigest_eqb k' k then Some v else cache_lookup rest k
  end.

(** The example proxy accepts as a URL what starts with http://, gives a
    parsed URL back as it is, never fails on a cache key, and knows the
    request URL. *)
Definition example_proxy (table : list (KeyDigest * (string * list string))) : Host :=
  mkHost true true
         (fun s => if (strncasecmp s "http://" 7 =? 0)%Z then Some s else None)
         (fun u => u)
         (fun _ => true)
         TSBase64Decode_spec
         (fun _ => true)
         true true (Some "http://origin.example/a")
         (cache_lookup table).

(** The body "abc", its digest, and the Digest header value announcing it. *)
Definition body_abc : list byte := bytes_of_string "abc".

Definition digest_abc : list byte :=
  Eval vm_compute in SHA256.SHA256_Final (SHA256.SHA256_Update SHA256.SHA256_Init body_abc).

Definition digest_value_abc : string := "SHA-256=ungWv48Bz+pBQUDeXa4iI7ADYaOWF3qctBD/YfIAFa0=".

(** A value that passes the scanner's two checks and does not decode to 32
    bytes: 48 base64 characters are 36 bytes. *)
Definition digest_value_long : string :=
  "SHA-256=AAAAAAAAAAAAAAAAAAAAAAAAAAAAAAAAAAAAAAAAAAAAAAAA".

(** [digested c s]: the context c is the one reached after the bytes s: the
    chaining value has taken the first q whole blocks of s, the buffer holds
    the bytes after them, the counter holds the bits of s. *)
Definition digested (c : SHA256.SHA256_CTX) (s : list byte) : Prop :=
  exists q : nat,
    (q * 64 <= List.length s < q * 64 + 64)%nat
    /\ SHA256.h c = SHA256.sha256_block_data_order (SHA256.h SHA256.SHA256_Init) s q
    /\ SHA256.data c = skipn (q * 64) s
    /\ (0 <= SHA256.Nl c < 2 ^ 32)%Z /\ (0 <= SHA256.Nh c < 2 ^ 32)%Z
    /\ (SHA256.Nh c * 2 ^ 32 + SHA256.Nl c = (8 * Z.of_nat (List.length s)) mod 2 ^ 64)%Z.

(** *** Predicates on sessions, for the statements below *)

(** A session is settled when the response has been resumed once if the
    session is over, and not at all while a continuation is alive or after
    an abort. *)
Definition settled (o : Outcome unit) : Prop :=
  match o with
  | Ok _ w => reenables w = match cont w with None => 1%nat | Some _ => 0%nat end
  | Abort w => reenables w = 0%nat
  end.

(** How far a session is from its end: the stages in the order the
    handlers arm one another. *)
Definition stage (w : World) : option nat :=
  match cont w with
  | None => Some 0%nat
  | Some c =>
      match cont_handler c, awaiting c with
      | Rewrite_handler, OpCacheRead _ => Some 1%nat
      | Digest_handler, OpVConnRead _ => Some 2%nat
      | Digest_handler, OpCacheRead _ => Some 3%nat
      | Location_handler, OpCacheRead _ => Some 4%nat
      | _, _ => None
      end
  end.

Definition within (n : nat) (o : Outcome unit) : Prop :=
  match o with
  | Ok _ w => exists m, stage w = Some m /\ (m <= n)%nat
  | Abort _ => False
  end.

(** The values the for loop does not skip. *)
Definition accepted (value : string) : bool := negb (skipped value).

Definition has_candidate (digest : list (list string)) : bool :=
  existsb (existsb accepted) digest.

(** The state of a session in which every accepted Digest value fails to
    decode: nothing is looked up by digest, nothing is written, and the one
    lookup there may be is the URL-phase one. *)
Definition undecodable_inv (host : Host) (location : option (list string))
    (digest : list (list string)) (o : Outcome unit) : Prop :=
  let w := world_of o in
  resp_location w = location
  /\ resp_digest w = digest
  /\ count is_digest_read w = 0%nat
  /\ count is_header_write w = 0%nat
  /\ (count is_cache_read w <= if has_candidate digest then 1 else 0)%nat
  /\ match o with
     | Ok _ w =>
         match cont w with
         | None => True
         | Some c =>
             cont_handler c = Location_handler
             /\ Base64Decode host
                  (string_drop 8
                     (TSMimeHdrFieldValueStringGet
                        (nth (digest_field (cont_data c)) digest []) (idx (cont_data c))))
                = None
         end
     | Abort _ => True
     end.

(** The keys of a session: one at most, alive while a continuation is, gone
    when the session is over. *)
Definition is_any_key_create (c : Call) : bool :=
  match c with Call_TSCacheKeyCreate _ => true | _ => false end.

Definition is_any_key_destroy (c : Call) : bool :=
  match c with Call_TSCacheKeyDestroy _ => true | _ => false end.

Definition keys_balanced (o : Outcome unit) : Prop :=
  match o with
  | Ok _ w =>
      match cont w with
      | None => count is_any_key_destroy w = count is_any_key_create w
                /\ (count is_any_key_create w <= 1)%nat
      | Some _ => count is_any_key_create w = 1%nat /\ count is_any_key_destroy w = 0%nat
      end
  | Abort w => (count is_any_key_create w <= 1)%nat /\ count is_any_key_destroy w = 0%nat
  end.

Definition is_log (c : Call) : bool :=
  match c with Call_TSLogError _ => true | _ => false end.

Definition is_vconn_write (c : Call) : bool :=
  match c with Call_TSVConnWrite _ _ => true | _ => false end.

Definition is_vconn_close (c : Call) : bool :=
  match c with Call_TSVConnClose _ => true | _ => false end.

Definition is_cache_write (c : Call) : bool :=
  match c with Call_TSCacheWrite _ => true | _ => false end.

(** Calls that acquire a resource the write continuation owns, and calls
    that give one back. *)
Definition is_acquire (c : Call) : bool :=
  match c with
  | Call_TSmalloc | Call_TSContCreate _ | Call_TSIOBufferCreate => true
  | _ => false
  end.

Definition is_release (c : Call) : bool :=
  match c with
  | Call_TSfree | Call_TSContDestroy _ | Call_TSIOBufferDestroy => true
  | _ => false
  end.

(** The request URL as cache_open_write gets it: through
    TSHttpTxnClientReqGet, TSHttpHdrUrlGet and TSUrlStringGet. *)
Definition client_request_url (host : Host) : option string :=
  if ClientReqGet host then
    if HdrUrlGet host then ReqUrlStringGet host else None
  else None.

(** Example proxies that fail where the body transform can fail. *)
Definition with_request (h : Host) (req hdr : bool) (s : option string) : Host :=
  mkHost (DEBUG h) (ClientRespGet h) (UrlParse h) (UrlStringGet h)
         (CacheKeyDigestFromUrlSet h) (Base64Decode h) (CacheKeyDigestSet h)
         req hdr s (cache h).

Definition with_key_digest_set (h : Host) (f : list byte -> bool) : Host :=
  mkHost (DEBUG h) (ClientRespGet h) (UrlParse h) (UrlStringGet h)
         (CacheKeyDigestFromUrlSet h) (Base64Decode h) f
         (ClientReqGet h) (HdrUrlGet h) (ReqUrlStringGet h) (cache h).


Definition is_vconn_read (c : Call) : bool :=
  match c with Call_TSVConnRead _ => true | _ => false end.

(** *** Example responses and caches *)

Definition mirror_b : string := "http://mirror.example/b".
Definition origin_a : string := "http://origin.example/a".

(** A cache that knows the digest of "abc" and the URL recorded for it,
    but holds nothing under that URL. *)
Definition table_digest_only : list (KeyDigest * (string * list string)) :=
  [ (KeyOfDigest digest_abc, (origin_a, [])) ].

(** The same with the body cached under the recorded URL. *)
Definition table_full : list (KeyDigest * (string * list string)) :=
  [ (KeyOfDigest digest_abc, (origin_a, [])); (KeyOfUrl origin_a, ("abc", [])) ].

(** A response that announces mirror_b with the digest of "abc". *)
Definition response_b : World := init_world (Some [mirror_b]) [[digest_value_abc]].

(** The same response with an undecodable value first: in the same Digest
    field, and in a Digest field of its own. *)
Definition response_b_long_first : World :=
  init_world (Some [mirror_b]) [[digest_value_long; digest_value_abc]].

Definition response_b_long_field_first : World :=
  init_world (Some [mirror_b]) [[digest_value_long]; [digest_value_abc]].

Definition response_b_long_only : World :=
  init_world (Some [mirror_b]) [[digest_value_long]].

(** A session whose digest-phase lookup is outstanding. *)
Definition data_digest_phase : SendData :=
  mkSendData mirror_b (mkKey 0 (KeyOfDigest digest_abc)) 0 0 false.

Definition world_digest_phase : World :=
  mkWorld (Some [mirror_b]) [[digest_value_abc]] [] 1
          (Some (mkCont Digest_handler data_digest_phase (OpCacheRead (KeyOfDigest digest_abc)))).

(** A transform whose cache write has just been opened. *)
Definition data_write_phase : TransformData.t :=
  TransformData.mk (Some []) 3 SHA256.SHA256_Init (Some (mkKey 0 (KeyOfDigest digest_abc))).

(** Chunkings of one 70-byte body. *)
Definition body_70 : list byte :=
  bytes_of_string "0123456789abcdefghijklmnopqrstuvwxyzABCDEFGHIJKLMNOPQRSTUVWXYZ-_.~!*()+".

Definition chunks_a : list (list byte) := [firstn 5 body_70; skipn 5 body_70].

Definition chunks_b : list (list byte) :=
  [firstn 64 body_70; []; firstn 3 (skipn 64 body_70); skipn 67 body_70].

Definition hex_of (bs : list byte) : list Z := map SHA256.byte_val bs.

(** The plugin's global continuation, hooked on both response events. *)
Definition handler (host : Host) (event : TSEvent) : M unit :=
  match event with
  | TS_EVENT_HTTP_READ_RESPONSE_HDR => http_read_response_hdr ;; ret tt
  | TS_EVENT_HTTP_SEND_RESPONSE_HDR => http_send_response_hdr host
  | _ => TSAssert_unexpected_event host
  end.


(** *** More on the scanner and the sessions *)

(** A string with every letter in lower case. *)
Fixpoint lowercase (s : string) : string :=
  match s with
  | EmptyString => EmptyString
  | String ch rest => String (tolower ch) (lowercase rest)
  end.

(** The while and for loops without their calls: the field and the index
    the scan stops at. *)
Fixpoint first_candidate (fields : list (list string)) (field : nat) : option (nat * nat) :=
  match fields with
  | [] => None
  | values :: next =>
      match scan_values values 0 with
      | Some i => Some (field, i)
      | None => first_candidate next (S field)
      end
  end.

(** The Digest fields the scan has released when it stops: all before the
    one it stops at, or all of them. *)
Definition fields_given_up (fields : list (list string)) (found : option (nat * nat)) : nat :=
  match found with
  | Some (f, _) => f
  | None => List.length fields
  end.

(** Whether the response headers make http_send_response_hdr start a
    lookup. *)
Definition qualifies (host : Host) (location : option (list string))
    (digest : list (list string)) : bool :=
  ClientRespGet host
  && match location with
     | Some values =>
         match UrlParse host (TSMimeHdrFieldValueStringGet values 0) with
         | Some u => CacheKeyDigestFromUrlSet host u && has_candidate digest
         | None => false
         end
     | None => false
     end.


(** How many lookups a session has made when a stage waits, and what a
    session may have done to the header: nothing before its end, and at its
    end either nothing or the one rewrite after the third lookup. *)
Definition lookups_inv (location : option (list string)) (o : Outcome unit) : Prop :=
  let w := world_of o in
  match o with
  | Ok _ _ =>
      match cont w with
      | None =>
          (count is_header_write w = 0%nat /\ resp_location w = location
           /\ (count is_cache_read w <= 3)%nat /\ (count is_digest_read w <= 1)%nat)
          \/ (count is_header_write w = 2%nat
              /\ count is_cache_read w = 3%nat /\ count is_digest_read w = 1%nat)
      | Some c =>
          count is_header_write w = 0%nat /\ resp_location w = location
          /\ match cont_handler c with
             | Location_handler =>
                 count is_cache_read w = 1%nat /\ count is_digest_read w = 0%nat
             | Digest_handler =>
                 count is_cache_read w = 2%nat /\ count is_digest_read w = 1%nat
             | Rewrite_handler =>
                 count is_cache_read w = 3%nat /\ count is_digest_read w = 1%nat
             end
      end
  | Abort _ =>
      count is_header_write w = 0%nat /\ resp_location w = location
      /\ (count is_cache_read w <= 3)%nat /\ (count is_digest_read w <= 1)%nat
  end.

(** Calls that write to the cache or close a cache vconnection. *)
Definition is_cache_mutation (c : Call) : bool :=
  is_cache_write c || is_vconn_write c || is_vconn_close c.

Definition is_malloc (c : Call) : bool :=
  match c with Call_TSmalloc => true | _ => false end.

Definition is_free (c : Call) : bool :=
  match c with Call_TSfree => true | _ => false end.

Definition is_cont_create (c : Call) : bool :=
  match c with Call_TSContCreate Send_contp => true | _ => false end.

Definition is_cont_destroy (c : Call) : bool :=
  match c with Call_TSContDestroy Send_contp => true | _ => false end.

Definition is_buffer_create (c : Call) : bool :=
  match c with Call_TSIOBufferCreate => true | _ => false end.

Definition is_buffer_destroy (c : Call) : bool :=
  match c with Call_TSIOBufferDestroy => true | _ => false end.

(** What a served session owns at each stage: the SendData, one
    continuation and one key while it waits, the read buffer while the
    stored value is being read, and nothing once it is over. *)
Definition owns_inv (o : Outcome unit) : Prop :=
  match o with
  | Ok _ w =>
      count is_malloc w = 1%nat
      /\ match cont w with
         | None =>
             count is_free w = 1%nat
             /\ count is_cont_destroy w = count is_cont_create w
             /\ count is_buffer_destroy w = count is_buffer_create w
             /\ count is_any_key_destroy w = count is_any_key_create w
         | Some c =>
             count is_free w = 0%nat
             /\ count is_cont_create w = S (count is_cont_destroy w)
             /\ count is_any_key_create w = 1%nat /\ count is_any_key_destroy w = 0%nat
             /\ match cont_handler c, awaiting c with
                | Digest_handler, OpVConnRead _ =>
                    count is_buffer_create w = S (count is_buffer_destroy w)
                | Digest_handler, OpCacheRead _
                | Location_handler, OpCacheRead _
                | Rewrite_handler, OpCacheRead _ =>
                    count is_buffer_create w = count is_buffer_destroy w
                | _, _ => False
                end
         end
  | Abort _ => False
  end.

Definition TSMLoc_eqb (a b : TSMLoc) : bool :=
  match a, b with
  | hdr_loc, hdr_loc => true
  | location_loc, location_loc => true
  | url_loc, url_loc => true
  | digest_loc f, digest_loc g => Nat.eqb f g
  | req_hdr_loc, req_hdr_loc => true
  | req_url_loc, req_url_loc => true
  | _, _ => false
  end.

Definition is_release_of (l : TSMLoc) (c : Call) : bool :=
  match c with
  | Call_TSHandleMLocRelease l' => TSMLoc_eqb l' l
  | _ => false
  end.

(** Whether http_send_response_hdr gets as far as the scan of the Digest
    fields. *)
Definition reaches_scan (host : Host) (location : option (list string)) : bool :=
  ClientRespGet host
  && match location with
     | Some values =>
         match UrlParse host (TSMimeHdrFieldValueStringGet values 0) with
         | Some u => CacheKeyDigestFromUrlSet host u
         | None => false
         end
     | None => false
     end.

(** The handles a session has obtained by its end, each counted once: the
    header, the Location field and the URL object, and the Digest fields the
    scan has looked at. *)
Definition handles_obtained (host : Host) (location : option (list string))
    (digest : list (list string)) (l : TSMLoc) : nat :=
  match l with
  | hdr_loc => if ClientRespGet host then 1 else 0
  | location_loc | url_loc =>
      if ClientRespGet host && match location with Some _ => true | None => false end
      then 1 else 0
  | digest_loc g =>
      if reaches_scan host location
         && (g <? match first_candidate digest 0 with
                  | Some (f, _) => S f
                  | None => List.length digest
                  end)%nat
      then 1 else 0
  | req_hdr_loc | req_url_loc => 0
  end%nat.

Definition handles_inv (host : Host) (location : option (list string))
    (digest : list (list string)) (o : Outcome unit) : Prop :=
  let w := world_of o in
  match o with
  | Ok _ _ =>
      match cont w with
      | None => forall l, count (is_release_of l) w = handles_obtained host location digest l
      | Some c =>
          reaches_scan host location = true
          /\ (exists i, first_candidate digest 0 = Some (digest_field (cont_data c), i))
          /\ forall l,
               count (is_release_of l) w
               = match l with
                 | digest_loc g =>
                     match cont_handler c with
                     | Location_handler =>
                         if (g <? digest_field (cont_data c))%nat then 1 else 0
                     | _ => if (g <=? digest_field (cont_data c))%nat then 1 else 0
                     end
                 | _ => 0
                 end%nat
      end
  | Abort _ => forall l, (count (is_release_of l) w <= 1)%nat
  end.


(** *** A body arriving at the transform *)

(** The producer side of the transform's input VIO: it appends blocks to
    the input buffer and calls the transform back (TS_EVENT_IMMEDIATE or
    TS_EVENT_VCONN_WRITE_READY). *)
Definition deliver_body (host : Host) (st : TransformData.t * VIO) (blocks : list (list byte))
  : M (TransformData.t * VIO) :=
  vconn_write_ready host (fst st)
    (mkVIO (vio_buffer (snd st)) (vio_blocks (snd st) ++ blocks)
           (vio_ndone (snd st)) (vio_nbytes (snd st))).

Fixpoint deliver_bodies (host : Host) (st : TransformData.t * VIO)
    (deliveries : list (list (list byte))) : M (TransformData.t * VIO) :=
  match deliveries with
  | [] => ret st
  | blocks :: rest => st' <- deliver_body host st blocks ;; deliver_bodies host st' rest
  end.

(** The bytes of a list of deliveries, in order. *)
Definition body_of (deliveries : list (list (list byte))) : list byte :=
  List.concat (map (@List.concat byte) deliveries).

(** The transform as http_read_response_hdr leaves it, and the input VIO
    of a body of [total] bytes before any of them has arrived. *)
Definition fresh_transform : TransformData.t :=
  TransformData.mk None 0 SHA256.SHA256_Init None.

Definition fresh_vio (total : Z) : VIO := mkVIO true [] 0 total.

Definition is_upstream_call (e : TSEvent) (c : Call) : bool :=
  match c, e with
  | Call_TSContCall TS_EVENT_VCONN_WRITE_READY, TS_EVENT_VCONN_WRITE_READY => true
  | Call_TSContCall TS_EVENT_VCONN_WRITE_COMPLETE, TS_EVENT_VCONN_WRITE_COMPLETE => true
  | _, _ => false
  end.

(** The SHA-256 digest of a byte string, fed at once. *)
Definition sha256 (bytes : list byte) : list byte :=
  SHA256.SHA256_Final (SHA256.SHA256_Update SHA256.SHA256_Init bytes).

(** What the transform has written downstream so far, and the digest
    context it holds: before the first call there is no output buffer and
    the context is not initialized yet (SHA256_Init runs with the buffer's
    creation). *)
Definition out_of (data : TransformData.t) : list byte :=
  match TransformData.bufp data with Some b => b | None => [] end.

Definition ctx_of (data : TransformData.t) : SHA256.SHA256_CTX :=
  match TransformData.bufp data with
  | Some _ => TransformData.c data
  | None => SHA256.SHA256_Init
  end.

(** A delivery that holds at least one byte. *)
Definition brings_bytes (blocks : list (list byte)) : bool :=
  negb (Nat.eqb (List.length (List.concat blocks)) 0).

Definition is_any_cont_create (c : Call) : bool :=
  match c with Call_TSContCreate _ => true | _ => false end.

Definition is_any_cont_destroy (c : Call) : bool :=
  match c with Call_TSContDestroy _ => true | _ => false end.

(** How many writes to a cache vconnection have been issued so far. *)
Definition vconn_writes : M nat := fun w => Ok (count is_vconn_write w) w.

(** The events of one response whose body is recorded, in the order the
    proxy raises them: the response header is read and the transform is
    hooked; the body arrives; the cache write the transform started is
    answered ([opened] is the cache vconnection, None when the open failed);
    the write continuation sees its write complete, which the proxy raises
    only in answer to the TSVConnWrite of cache_open_write: when
    cache_open_write has returned before that call, no event ever reaches
    the write continuation; the transform's own output completes. *)
Definition record (host : Host) (deliveries : list (list (list byte))) (total : Z)
    (opened : option nat) : M unit :=
  data <- http_read_response_hdr ;;
  st <- deliver_bodies host (data, fresh_vio total) deliveries ;;
  before <- vconn_writes ;;
  r <- match opened with
       | Some connp => transform_handler host (fst st) TS_EVENT_CACHE_OPEN_WRITE connp (snd st)
       | None => transform_handler host (fst st) TS_EVENT_CACHE_OPEN_WRITE_FAILED 0 (snd st)
       end ;;
  after <- vconn_writes ;;
  match r_write r with
  | Some write_data =>
      if (before <? after)%nat
      then write_handler host write_data TS_EVENT_VCONN_WRITE_COMPLETE
      else ret tt
  | None => ret tt
  end ;;
  match r_data r with
  | Some data =>
      transform_handler host data TS_EVENT_VCONN_WRITE_COMPLETE 0 (r_vio r) ;; ret tt
  | None => ret tt
  end.

(** What no call of the body handler changes, and the one thing the first
    call adds: the output buffer. *)
Definition owned_step (called : bool) (data : TransformData.t) (w : World)
    (o : Outcome (TransformData.t * VIO)) : Prop :=
  match o with
  | Ok st w' =>
      count is_malloc w' = count is_malloc w
      /\ count is_free w' = count is_free w
      /\ count is_any_cont_create w' = count is_any_cont_create w
      /\ count is_any_cont_destroy w' = count is_any_cont_destroy w
      /\ count is_buffer_destroy w' = count is_buffer_destroy w
      /\ count is_any_key_destroy w' = count is_any_key_destroy w
      /\ count is_vconn_close w' = count is_vconn_close w
      /\ count is_vconn_write w' = count is_vconn_write w
      /\ reenables w' = reenables w
      /\ count is_buffer_create w'
         = ((match TransformData.bufp data with
             | Some _ => 0
             | None => if called then 1 else 0
             end) + count is_buffer_create w)%nat
      /\ (called = true \/ TransformData.bufp data <> None ->
          TransformData.bufp (fst st) <> None)
  | Abort _ => False
  end.

(** * Verification *)

(** ** The digest *)

Example sha256_abc :
  hex_of (SHA256.SHA256_Final (SHA256.SHA256_Update SHA256.SHA256_Init (bytes_of_string "abc")))
  = [ 0xba; 0x78; 0x16; 0xbf; 0x8f; 0x01; 0xcf; 0xea; 0x41; 0x41; 0x40; 0xde; 0x5d; 0xae; 0x22; 0x23;
      0xb0; 0x03; 0x61; 0xa3; 0x96; 0x17; 0x7a; 0x9c; 0xb4; 0x10; 0xff; 0x61; 0xf2; 0x00; 0x15; 0xad ]%Z.
Proof. vm_compute. reflexivity. Qed.

Example sha256_empty :
  hex_of (SHA256.SHA256_Final SHA256.SHA256_Init)
  = [ 0xe3; 0xb0; 0xc4; 0x42; 0x98; 0xfc; 0x1c; 0x14; 0x9a; 0xfb; 0xf4; 0xc8; 0x99; 0x6f; 0xb9; 0x24;
      0x27; 0xae; 0x41; 0xe4; 0x64; 0x9b; 0x93; 0x4c; 0xa4; 0x95; 0x99; 0x1b; 0x78; 0x52; 0xb8; 0x55 ]%Z.
Proof. vm_compute. reflexivity. Qed.

(** 56 bytes: the padding does not fit the block of the last bytes. *)
Example sha256_two_blocks :
  hex_of (SHA256.SHA256_Final
            (SHA256.SHA256_Update SHA256.SHA256_Init
               (bytes_of_string "abcdbcdecdefdefgefghfghighijhijkijkljklmklmnlmnomnopnopq")))
  = [ 0x24; 0x8d; 0x6a; 0x61; 0xd2; 0x06; 0x38; 0xb8; 0xe5; 0xc0; 0x26; 0x93; 0x0c; 0x3e; 0x60; 0x39;
      0xa3; 0x3c; 0xe4; 0x59; 0x64; 0xff; 0x21; 0x67; 0xf6; 0xec; 0xed; 0xd4; 0x19; 0xdb; 0x06; 0xc1 ]%Z.
Proof. vm_compute. reflexivity. Qed.

Example K256_ends :
  List.length SHA256.K256 = 64%nat
  /\ nth 0 SHA256.K256 0%Z = 0x428a2f98%Z
  /\ nth 63 SHA256.K256 0%Z = 0xc67178f2%Z.
Proof. vm_compute. repeat split. Qed.

Example base64_of_digest_abc :
  TSBase64Decode_spec (string_drop 8 digest_value_abc) = Some digest_abc.
Proof. vm_compute. reflexivity. Qed.

Section SHA256_chunking.
Import SHA256.
Local Open Scope Z_scope.

Lemma sbdo_skip (k m : nat) : forall hh s,
  sha256_block_data_order hh s (k + m)
  = sha256_block_data_order (sha256_block_data_order hh s k) (skipn (k * 64) s) m.
Proof.
  induction k as [|k IH]; intros hh s.
  - reflexivity.
  - cbn [Nat.add sha256_block_data_order]. rewrite IH, skipn_skipn.
    do 2 f_equal. lia.
Qed.

Lemma sbdo_prefix (k : nat) : forall hh a b,
  (k * 64 <= List.length a)%nat ->
  sha256_block_data_order hh (a ++ b) k = sha256_block_data_order hh a k.
Proof.
  induction k as [|k IH]; intros hh a b Hlen.
  - reflexivity.
  - cbn [sha256_block_data_order].
    assert (H64 : (64 <= List.length a)%nat) by lia.
    rewrite firstn_app, skipn_app.
    replace (64 - List.length a)%nat with 0%nat by lia.
    rewrite firstn_O, skipn_O, app_nil_r.
    apply IH. rewrite length_skipn. lia.
Qed.

(** The bit counter after [len] more bytes, as one 64-bit number. *)
Lemma bit_count_step (nl nh len : Z) :
  0 <= nl < 2 ^ 32 -> 0 <= nh < 2 ^ 32 -> 0 <= len ->
  let l := w32 (nl + w32 (Z.shiftl (w32 len) 3)) in
  let nh1 := if l <? nl then w32 (nh + 1) else nh in
  let nh2 := w32 (nh1 + w32 (Z.shiftr len 29)) in
  nh2 * 2 ^ 32 + l = (nh * 2 ^ 32 + nl + 8 * len) mod 2 ^ 64
  /\ 0 <= l < 2 ^ 32 /\ 0 <= nh2 < 2 ^ 32.
Proof.
  intros Hnl Hnh Hlen. cbv zeta. unfold w32.
  rewrite Z.shiftl_mul_pow2, Z.shiftr_div_pow2 by lia.
  change (2 ^ 3) with 8. change (2 ^ 29) with 536870912.
  change (2 ^ 32) with 4294967296 in *. change (2 ^ 64) with 18446744073709551616.
  destruct (Z.ltb_spec ((nl + len mod 4294967296 * 8 mod 4294967296) mod 4294967296) nl);
    Z.div_mod_to_equations; lia.
Qed.


Lemma digested_Init : digested SHA256_Init [].
Proof.
  exists 0%nat. cbn [List.length Nat.mul Nat.add h data Nl Nh SHA256_Init skipn sha256_block_data_order].
  repeat split; try lia; reflexivity.
Qed.

Lemma digested_unique (c c' : SHA256_CTX) (s : list byte) :
  digested c s -> digested c' s -> c = c'.
Proof.
  intros (q & Hq & Hh & Hd & Hl & Hh' & Hb) (q' & Hq' & Hh2 & Hd2 & Hl2 & Hh2' & Hb2).
  assert (q' = q) by lia. subst q'.
  destruct c as [h1 nl1 nh1 d1], c' as [h2 nl2 nh2 d2]; cbn [h Nl Nh data] in *.
  assert (nl1 = nl2 /\ nh1 = nh2) as [-> ->].
  { rewrite <- Hb2 in Hb. change (2 ^ 32) with 4294967296 in *. lia. }
  congruence.
Qed.

Lemma digested_Update (c : SHA256_CTX) (xs ys : list byte) :
  digested c xs -> digested (SHA256_Update c ys) (xs ++ ys).
Proof.
  intros (q & Hq & Hh & Hd & Hl & Hnh & Hb).
  unfold SHA256_Update.
  destruct (Z.eqb_spec (Z.of_nat (List.length ys)) 0) as [Hz|Hnz].
  { destruct ys; [|discriminate]. rewrite app_nil_r. exists q. repeat split; tauto || lia. }
  destruct (bit_count_step (Nl c) (Nh c) (Z.of_nat (List.length ys)) Hl Hnh ltac:(lia))
    as (Hcount & Hl' & Hnh').
  cbv zeta in Hcount, Hl', Hnh'.
  assert (Hbits : forall l nh, nh * 2 ^ 32 + l
              = (Nh c * 2 ^ 32 + Nl c + 8 * Z.of_nat (List.length ys)) mod 2 ^ 64 ->
            nh * 2 ^ 32 + l = (8 * Z.of_nat (List.length (xs ++ ys))) mod 2 ^ 64).
  { intros l nh ->. rewrite Hb, length_app, Nat2Z.inj_add, Z.add_mod_idemp_l by lia.
    f_equal. lia. }
  assert (Hnum : num c = Z.of_nat (List.length xs - q * 64)).
  { unfold num. rewrite Hd, length_skipn. reflexivity. }
  unfold SHA_CBLOCK.
  destruct (Z.eqb_spec (num c) 0) as [Hn0|Hn0]; cbn [negb].
  - (* empty buffer: whole blocks straight from the input *)
    set (nb := Z.to_nat (Z.of_nat (List.length ys) / 64)).
    assert (Hnb : (nb * 64 <= List.length ys < nb * 64 + 64)%nat).
    { subst nb. pose proof (Z.div_mod (Z.of_nat (List.length ys)) 64 ltac:(lia)).
      pose proof (Z.mod_pos_bound (Z.of_nat (List.length ys)) 64 ltac:(lia)).
      pose proof (Z.div_pos (Z.of_nat (List.length ys)) 64 ltac:(lia) ltac:(lia)). lia. }
    assert (Hlx : List.length xs = (q * 64)%nat) by lia.
    exists (q + nb)%nat. cbn [h Nl Nh data]. rewrite length_app.
    split; [lia|]. split; [|split; [|split; [exact Hl'|split; [exact Hnh'|]]]].
    + rewrite (sbdo_skip q nb), (sbdo_prefix q _ xs ys) by lia.
      rewrite <- Hh, skipn_app, Hlx, Nat.sub_diag, skipn_O.
      rewrite skipn_all2 by lia. reflexivity.
    + rewrite skipn_app. rewrite (skipn_all2 xs) by lia. cbn [app].
      f_equal. lia.
    + rewrite <- length_app. apply Hbits, Hcount.
  - destruct ((Z.of_nat (List.length ys) >=? 64) || (Z.of_nat (List.length ys) + num c >=? 64)) eqn:Hfill.
    + (* the pending bytes are topped up to a block *)
      assert (Hge : (64 <= List.length ys + (List.length xs - q * 64))%nat).
      { apply orb_true_iff in Hfill. destruct Hfill as [H|H]; apply Z.geb_le in H; lia. }
      set (fill := Z.to_nat (64 - num c)).
      assert (Hfill' : fill = (64 - (List.length xs - q * 64))%nat) by (subst fill; lia).
      set (rest := skipn fill ys).
      assert (Hrest : List.length rest = (List.length ys - fill)%nat)
        by (subst rest; apply length_skipn).
      set (nb := Z.to_nat (Z.of_nat (List.length rest) / 64)).
      assert (Hnb : (nb * 64 <= List.length rest < nb * 64 + 64)%nat).
      { subst nb. pose proof (Z.div_mod (Z.of_nat (List.length rest)) 64 ltac:(lia)).
        pose proof (Z.mod_pos_bound (Z.of_nat (List.length rest)) 64 ltac:(lia)).
        pose proof (Z.div_pos (Z.of_nat (List.length rest)) 64 ltac:(lia) ltac:(lia)). lia. }
      exists (q + (1 + nb))%nat. cbn [h Nl Nh data]. rewrite length_app.
      split; [lia|]. split; [|split; [|split; [exact Hl'|split; [exact Hnh'|]]]].
      * rewrite (sbdo_skip q (1 + nb)), (sbdo_prefix q _ xs ys) by lia. rewrite <- Hh.
        rewrite skipn_app. replace (q * 64 - List.length xs)%nat with 0%nat by lia.
        rewrite skipn_O, <- Hd.
        assert (Hdl : List.length (data c) = (List.length xs - q * 64)%nat)
          by (rewrite Hd; apply length_skipn).
        assert (E1 : sha256_block_data_order (h c) (data c ++ ys) 1
                     = sha256_block_data_order (h c) (data c ++ firstn fill ys) 1).
        { rewrite <- (firstn_skipn fill ys) at 1. rewrite app_assoc.
          apply sbdo_prefix. rewrite length_app, length_firstn. lia. }
        assert (E2 : skipn (1 * 64) (data c ++ ys) = rest).
        { rewrite skipn_app, (skipn_all2 (data c)) by lia.
          cbn [app]. subst rest. rewrite Hdl. apply (f_equal (fun n => skipn n ys)). lia. }
        rewrite (sbdo_skip 1 nb), E1, E2. reflexivity.
      * replace ((q + (1 + nb)) * 64)%nat with (nb * 64 + (fill + List.length xs))%nat by lia.
        rewrite <- skipn_skipn. f_equal.
        rewrite <- skipn_skipn. rewrite skipn_app, Nat.sub_diag, skipn_O.
        rewrite (skipn_all2 xs) by lia. reflexivity.
      * rewrite <- length_app. apply Hbits, Hcount.
    + (* still less than a block *)
      assert (Hlt : (List.length ys + (List.length xs - q * 64) < 64)%nat).
      { apply orb_false_iff in Hfill. destruct Hfill as [_ H].
        destruct (Z.geb_spec (Z.of_nat (List.length ys) + num c) 64); [discriminate|lia]. }
      exists q. cbn [h Nl Nh data]. rewrite length_app.
      split; [lia|]. split; [|split; [|split; [exact Hl'|split; [exact Hnh'|]]]].
      * rewrite (sbdo_prefix q _ xs ys) by lia. exact Hh.
      * rewrite skipn_app. replace (q * 64 - List.length xs)%nat with 0%nat by lia.
        rewrite skipn_O, Hd. reflexivity.
      * rewrite <- length_app. apply Hbits, Hcount.
Qed.

Lemma digested_feed_blocks (blocks : list (list byte)) :
  forall c s, digested c s -> digested (feed_blocks c blocks) (s ++ List.concat blocks).
Proof.
  induction blocks as [|b blocks IH]; intros c s Hc; cbn [feed_blocks fold_left List.concat].
  - rewrite app_nil_r. exact Hc.
  - rewrite app_assoc. apply IH, digested_Update, Hc.
Qed.

Lemma SHA256_Final_length (c : SHA256_CTX) : List.length (SHA256_Final c) = 32%nat.
Proof.
  unfold SHA256_Final.
  destruct (Z.of_nat (List.length (data c ++ [x80])) >? SHA_CBLOCK - 8); reflexivity.
Qed.

End SHA256_chunking.

(** What the transform hands to TSCacheKeyDigestSet after several
    deliveries is the digest of the bytes delivered, in order. *)
Lemma digest_of_deliveries_spec (deliveries : list (list (list byte))) :
  digest_of_deliveries deliveries
  = SHA256.SHA256_Final
      (SHA256.SHA256_Update SHA256.SHA256_Init (List.concat (map (@List.concat byte) deliveries))).
Proof.
  unfold digest_of_deliveries. f_equal.
  assert (H : forall ds c s, digested c s ->
            digested (fold_left feed_blocks ds c) (s ++ List.concat (map (@List.concat byte) ds))).
  { induction ds as [|d ds IH]; intros c s Hc; cbn [fold_left map List.concat].
    - rewrite app_nil_r. exact Hc.
    - rewrite app_assoc. apply IH, digested_feed_blocks, Hc. }
  eapply digested_unique.
  - apply (H deliveries _ [] digested_Init).
  - apply (digested_Update _ [] _ digested_Init).
Qed.

(** C8.  Two partitions of one byte sequence into chunks, fed chunk by
    chunk to SHA256_Update and finalized, give the same digest: it is the
    digest of the whole sequence fed at once, and it is 32 bytes long.  The
    empty sequence and empty chunks are included. *)
Theorem digest_independent_of_chunking (chunks chunks' : list (list byte)) :
  List.concat chunks = List.concat chunks' ->
  SHA256.SHA256_Final (feed_blocks SHA256.SHA256_Init chunks)
  = SHA256.SHA256_Final (feed_blocks SHA256.SHA256_Init chunks')
  /\ SHA256.SHA256_Final (feed_blocks SHA256.SHA256_Init chunks)
     = SHA256.SHA256_Final (SHA256.SHA256_Update SHA256.SHA256_Init (List.concat chunks))
  /\ List.length (SHA256.SHA256_Final (feed_blocks SHA256.SHA256_Init chunks)) = 32%nat.
Proof.
  intros Heq.
  assert (H : forall cs, feed_blocks SHA256.SHA256_Init cs
                         = SHA256.SHA256_Update SHA256.SHA256_Init (List.concat cs)).
  { intros cs. eapply digested_unique.
    - apply (digested_feed_blocks cs _ [] digested_Init).
    - apply (digested_Update _ [] _ digested_Init). }
  rewrite (H chunks), (H chunks'), Heq.
  repeat split. apply SHA256_Final_length.
Qed.

Lemma digest_independent_of_chunking_witness :
  List.concat chunks_a = List.concat chunks_b
  /\ SHA256.SHA256_Final (feed_blocks SHA256.SHA256_Init chunks_a)
     = SHA256.SHA256_Final (feed_blocks SHA256.SHA256_Init chunks_b).
Proof.
  split; [reflexivity|].
  apply (digest_independent_of_chunking chunks_a chunks_b). reflexivity.
Defined.


(** ** Symbolic execution of the handlers *)

Ltac api :=
  cbv beta iota zeta delta
    [ bind ret call abort set_cont set_location store
      TSmalloc TSfree TSLogError TSHttpTxnReenable TSHandleMLocRelease TSUrlCreate
      TSIOBufferCreate TSIOBufferDestroy TSCacheKeyCreate TSCacheKeyDestroy
      TSContCreate TSContDestroy TSCacheRead TSVConnRead
      TSMimeHdrFieldValuesClear TSMimeHdrFieldValueStringInsert
      TSAssert_unexpected_event release_and_reenable
      rewrite_handler cache_open_read cache_open_read_failed vconn_read_ready
      digest_handler location_handler deliver
      resp_location resp_digest trace next_key cont
      cont_handler cont_data awaiting key key_id key_digest url digest_field idx read_bufp
      ev edata readable negb ].

Ltac branches tac :=
  repeat (tac;
          match goal with
          | |- context [match ?x with _ => _ end] =>
              lazymatch x with
              | context [match _ with _ => _ end] => fail
              | context [scan_fields] => fail
              | context [deliver_all] => fail
              | context [serve_steps] => fail
              | _ => destruct x eqn:?
              end
          end);
  tac.

Ltac reduce := cbn [world_of finished aborted negb].

Ltac count_calls := cbn [filter is_reenable is_cache_read is_digest_read is_header_write
                         is_key_create is_key_destroy List.length app Nat.eqb].

Lemma deliver_settled (host : Host) (e : HostEvent) (w : World) :
  settled (Ok tt w) -> settled (deliver host e w).
Proof.
  destruct w as [loc dig tr nk [c|]]; [|intros H; exact H].
  destruct c as [hd [u [kid kd] f i rb] op], e as [event conn blocks].
  unfold settled, reenables, count. cbn [cont trace]. intros H.
  destruct hd; api; branches count_calls; lia.
Qed.

Lemma deliver_all_invariant (host : Host) (P : Outcome unit -> Prop) :
  (forall e w, P (Ok tt w) -> P (deliver host e w)) ->
  forall evs w, P (Ok tt w) -> P (deliver_all host evs w).
Proof.
  intros Hstep evs. induction evs as [|e evs IH]; intros w Hw.
  - exact Hw.
  - cbn [deliver_all]. unfold bind.
    pose proof (Hstep e w Hw) as He.
    destruct (deliver host e w) as [[] w'|w']; [apply IH|]; exact He.
Qed.

Lemma filter_releases (p : Call -> bool) (locs : list TSMLoc) (tr : list Call) :
  (forall l, p (Call_TSHandleMLocRelease l) = false) ->
  filter p (map Call_TSHandleMLocRelease locs ++ tr) = filter p tr.
Proof.
  intros Hp. induction locs as [|l locs IH]; cbn [map app filter].
  - reflexivity.
  - rewrite Hp. exact IH.
Qed.

(** What the for loop finds: a value that is not skipped, or that all are. *)
Lemma scan_values_spec (values : list string) :
  forall i,
    match scan_values values i with
    | Some j => (i <= j)%nat /\ (j - i < List.length values)%nat
                /\ skipped (nth (j - i) values EmptyString) = false
    | None => forall v, In v values -> skipped v = true
    end.
Proof.
  induction values as [|v values IH]; intros i; cbn [scan_values].
  - intros v [].
  - destruct (skipped v) eqn:Hv.
    + specialize (IH (S i)). destruct (scan_values values (S i)) as [j|].
      * destruct IH as (Hle & Hlt & Hs). cbn [List.length].
        replace (j - i)%nat with (S (j - S i)) by lia. cbn [nth].
        repeat split; try lia. exact Hs.
      * intros v' [<-|Hin]; [exact Hv|apply IH, Hin].
    + rewrite Nat.sub_diag. cbn [nth List.length]. repeat split; try lia. exact Hv.
Qed.

(** The while loop only releases the fields it gives up on, and what it
    returns is a value of the header that the for loop did not skip. *)
Lemma scan_fields_spec (fields : list (list string)) :
  forall field w, exists found locs,
    scan_fields fields field w
    = Ok found (mkWorld (resp_location w) (resp_digest w)
                        (map Call_TSHandleMLocRelease locs ++ trace w) (next_key w) (cont w))
    /\ match found with
       | Some (f, i) =>
           (field <= f)%nat
           /\ In (nth (f - field) fields []) fields
           /\ In (nth i (nth (f - field) fields []) EmptyString) (nth (f - field) fields [])
           /\ skipped (nth i (nth (f - field) fields []) EmptyString) = false
       | None => forall vs v, In vs fields -> In v vs -> skipped v = true
       end.
Proof.
  induction fields as [|values fields IH]; intros field w; cbn [scan_fields].
  - exists None, []. destruct w; split; [reflexivity|]. intros vs v [].
  - pose proof (scan_values_spec values 0) as Hv.
    destruct (scan_values values 0) as [i|].
    + exists (Some (field, i)), []. destruct w; split; [reflexivity|].
      rewrite Nat.sub_diag. cbn [nth]. rewrite Nat.sub_0_r in Hv.
      destruct Hv as (_ & Hlt & Hs). repeat split; try lia.
      * left; reflexivity.
      * apply nth_In, Hlt.
      * exact Hs.
    + unfold bind, TSHandleMLocRelease, call.
      destruct (IH (S field)
                  (mkWorld (resp_location w) (resp_digest w)
                     (Call_TSHandleMLocRelease (digest_loc field) :: trace w)
                     (next_key w) (cont w))) as (found & locs & E & Hf).
      exists found, (locs ++ [digest_loc field]). rewrite E. cbn [resp_location resp_digest trace next_key cont].
      split.
      * rewrite map_app, <- app_assoc. reflexivity.
      * destruct found as [[f i]|].
        -- destruct Hf as (Hle & Hin & Hin' & Hs).
           replace (f - field)%nat with (S (f - S field)) by lia. cbn [nth].
           repeat split; try lia; try assumption. right; exact Hin.
        -- intros vs v [<-|Hin] Hin'; [apply Hv, Hin'|eapply Hf; eassumption].
Qed.

Ltac scan :=
  match goal with
  | |- context [scan_fields ?fs ?n ?w] =>
      let found := fresh "found" in
      let locs := fresh "locs" in
      let E := fresh "Escan" in
      let Hf := fresh "Hfound" in
      destruct (scan_fields_spec fs n w) as (found & locs & E & Hf);
      rewrite E; clear E;
      cbn [resp_location resp_digest trace next_key cont] in *
  end.

Ltac api_send :=
  cbv beta iota zeta delta [http_send_response_hdr]; api.

Lemma http_send_response_hdr_settled (host : Host) (w : World) :
  reenables w = 0%nat -> cont w = None -> settled (http_send_response_hdr host w).
Proof.
  destruct w as [loc dig tr nk k].
  unfold settled, reenables, count. cbn [cont trace]. intros H ->.
  api_send. branches count_calls; try lia.
  scan; branches count_calls; rewrite ?filter_releases by reflexivity; count_calls; lia.
Qed.

Lemma run_settled (host : Host) (evs : list HostEvent) (w : World) :
  reenables w = 0%nat -> cont w = None -> settled (run host evs w).
Proof.
  intros Hr Hc. unfold run, bind.
  pose proof (http_send_response_hdr_settled host w Hr Hc) as H.
  destruct (http_send_response_hdr host w) as [[] w'|w']; [|exact H].
  apply deliver_all_invariant; [apply deliver_settled|exact H].
Qed.

Lemma serve_step_progress (host : Host) (n : nat) (w : World) :
  within (S n) (Ok tt w) -> within n (serve_step host w).
Proof.
  destruct w as [loc dig tr nk [c|]].
  - destruct c as [hd [u [kid kd] f i rb] op].
    unfold within, stage, serve_step, proxy_answer. cbn [cont cont_handler awaiting].
    intros (m & Hm & Hle).
    destruct hd, op; try discriminate; injection Hm as <-.
    all: try (destruct (cache host _) as [[first more]|]); api;
      cbn [vc_first vc_more]; branches reduce;
      eexists; (split; [reflexivity|lia]).
  - intros _. exists 0%nat. split; [reflexivity|lia].
Qed.

Lemma serve_steps_finish (host : Host) (n : nat) :
  forall w, within n (Ok tt w) -> within 0 (serve_steps host n w).
Proof.
  induction n as [|n IH]; intros w Hw.
  - exact Hw.
  - cbn [serve_steps]. unfold bind.
    pose proof (serve_step_progress host n w Hw) as H.
    destruct (serve_step host w) as [[] w'|w']; [apply IH, H|destruct H].
Qed.

Lemma http_send_response_hdr_within (host : Host) (w : World) :
  cont w = None -> within 4 (http_send_response_hdr host w).
Proof.
  destruct w as [loc dig tr nk k]. cbn [cont]. intros ->.
  unfold within, stage. api_send. branches reduce.
  all: try (eexists; split; [reflexivity|lia]).
  scan. branches reduce; eexists; (split; [reflexivity|lia]).
Qed.

Lemma within_0_finished (o : Outcome unit) : within 0 o -> finished o = true.
Proof.
  destruct o as [[] w|w]; [|intros []]. unfold within, stage, finished.
  intros (m & Hm & Hle). destruct (cont w) as [c|]; [|reflexivity].
  destruct (cont_handler c), (awaiting c); try discriminate;
    injection Hm as <-; lia.
Qed.

Lemma serve_finished (host : Host) (w : World) :
  cont w = None -> finished (serve host w) = true.
Proof.
  intros Hc. apply within_0_finished. unfold serve, bind.
  pose proof (http_send_response_hdr_within host w Hc) as H.
  destruct (http_send_response_hdr host w) as [[] w'|w']; [|destruct H].
  apply serve_steps_finish, H.
Qed.

Lemma serve_step_settled (host : Host) (w : World) :
  settled (Ok tt w) -> settled (serve_step host w).
Proof.
  intros H. unfold serve_step. destruct (proxy_answer host w); [|exact H].
  apply deliver_settled, H.
Qed.

Lemma serve_settled (host : Host) (w : World) :
  reenables w = 0%nat -> cont w = None -> settled (serve host w).
Proof.
  intros Hr Hc. unfold serve, bind.
  pose proof (http_send_response_hdr_settled host w Hr Hc) as H.
  destruct (http_send_response_hdr host w) as [[] w'|w']; [|exact H].
  clear Hr Hc. revert w' H. generalize 4%nat. intros n.
  induction n as [|n IH]; intros w' H; [exact H|].
  cbn [serve_steps]. unfold bind.
  pose proof (serve_step_settled host w' H) as H'.
  destruct (serve_step host w') as [[] w''|w'']; [apply IH, H'|exact H'].
Qed.

Lemma settled_finished (o : Outcome unit) :
  settled o -> reenables (world_of o) = if finished o then 1%nat else 0%nat.
Proof.
  destruct o as [[] w|w]; cbn [settled world_of finished]; [|tauto].
  destruct (cont w); tauto.
Qed.

(** C2.  A response entering the send path is resumed exactly once on
    every terminal branch: whatever events the proxy delivers, the number
    of TSHttpTxnReenable calls is one when the session has ended and zero
    while it is still waiting; and with a proxy that answers every
    outstanding operation the session does end, resumed once. *)
Theorem resumed_exactly_once (host : Host) (location : option (list string))
    (digest : list (list string)) (evs : list HostEvent) :
  reenables (world_of (run host evs (init_world location digest)))
  = (if finished (run host evs (init_world location digest)) then 1%nat else 0%nat)
  /\ finished (serve host (init_world location digest)) = true
  /\ reenables (world_of (serve host (init_world location digest))) = 1%nat.
Proof.
  split; [|split].
  - apply settled_finished, run_settled; reflexivity.
  - apply serve_finished; reflexivity.
  - rewrite settled_finished by (apply serve_settled; reflexivity).
    rewrite serve_finished; reflexivity.
Qed.

Lemma deliver_all_finished (host : Host) (evs : list HostEvent) (w : World) :
  cont w = None -> deliver_all host evs w = Ok tt w.
Proof.
  intros Hc. induction evs as [|e evs IH]; [reflexivity|].
  cbn [deliver_all]. unfold bind, deliver at 1. rewrite Hc. exact IH.
Qed.

Ltac observe :=
  cbn [world_of finished aborted resp_location resp_digest trace next_key cont];
  unfold reenables, count; cbn [trace];
  count_calls; rewrite ?filter_releases by reflexivity; count_calls.

(** C5.  When the URL-phase open-for-read succeeds, the session ends at
    once: no digest-phase lookup is issued, no header is written, the
    Location field is what it was, and the response is resumed (once). *)
Theorem url_hit_resumes_unmodified (host : Host) (location : option (list string))
    (digest : list (list string)) (connp : TSVConn) (blocks : list string)
    (rest : list HostEvent) :
  let o := run host (mkEvent TS_EVENT_CACHE_OPEN_READ connp blocks :: rest)
               (init_world location digest) in
  finished o = true
  /\ reenables (world_of o) = 1%nat
  /\ resp_location (world_of o) = location
  /\ count is_digest_read (world_of o) = 0%nat
  /\ count is_header_write (world_of o) = 0%nat
  /\ (count is_cache_read (world_of o) <= 1)%nat.
Proof.
  cbv zeta. unfold run, init_world, bind at 1.
  api_send. branches reduce.
  all: try scan; branches reduce.
  all: cbn [deliver_all]; unfold bind; api; branches reduce.
  all: rewrite deliver_all_finished by reflexivity.
  all: observe; repeat split; lia.
Qed.

(** C10.  On the read-ready event of the digest-phase read the handler
    parses the first block of the read buffer and nothing else: the blocks
    after it do not change what it does.  If the first block does not parse
    (or no key can be made from it) the session ends with the header as it
    was; if it parses, it is the URL the next lookup is keyed by and, when
    that lookup succeeds, the text the Location field is rewritten to. *)
Theorem read_ready_parses_first_block_only (host : Host) (data : SendData)
    (first : string) (more : list string) (w : World) :
  vconn_read_ready host data (first :: more) w = vconn_read_ready host data [first] w
  /\ match UrlParse host first with
     | Some u =>
         if CacheKeyDigestFromUrlSet host u then
           (exists tr,
              vconn_read_ready host data (first :: more) w
              = Ok tt (mkWorld (resp_location w) (resp_digest w) tr (next_key w)
                         (Some (mkCont Rewrite_handler
                                  (mkSendData u (mkKey (key_id (key data)) (KeyOfUrl u))
                                              (digest_field data) (idx data) (read_bufp data))
                                  (OpCacheRead (KeyOfUrl u))))))
           /\ forall connp blocks,
                resp_location
                  (world_of ((vconn_read_ready host data (first :: more) ;;
                              deliver host (mkEvent TS_EVENT_CACHE_OPEN_READ connp blocks)) w))
                = match resp_location w with
                  | Some _ => Some [UrlStringGet host u]
                  | None => None
                  end
         else
           finished (vconn_read_ready host data (first :: more) w) = true
           /\ resp_location (world_of (vconn_read_ready host data (first :: more) w))
              = resp_location w
     | None =>
         finished (vconn_read_ready host data (first :: more) w) = true
         /\ resp_location (world_of (vconn_read_ready host data (first :: more) w))
            = resp_location w
     end.
Proof.
  split; [reflexivity|].
  destruct w as [loc dig tr nk k], data as [u0 [kid kd] f i rb].
  destruct (UrlParse host first) as [u|] eqn:Hparse;
    [destruct (CacheKeyDigestFromUrlSet host u) eqn:Hkey|].
  - split.
    + api. rewrite Hparse, Hkey. cbn [negb]. eexists. reflexivity.
    + intros connp blocks. api. rewrite Hparse, Hkey. cbn [negb].
      destruct loc; reflexivity.
  - api. rewrite Hparse, Hkey. split; reflexivity.
  - api. rewrite Hparse. split; reflexivity.
Qed.

(** C1, as the code has it.  With the digest-phase lookup outstanding: when
    the open-for-read succeeds, the first block of the stored value parses
    as a URL, a cache key can be made from that URL and the further
    open-for-read under that URL succeeds too, the values of the Location
    field are cleared and replaced by the text of the recovered URL, and the
    response is resumed, once.  When that further open-for-read fails the
    response is resumed with the Location field as it was. *)
Theorem digest_hit_rewrites_when_url_cached (host : Host) (w : World) (data : SendData)
    (op : Op) (old : list string) (connp c3 : TSVConn) (b1 b2 b3 : list string)
    (first : string) (more : list string) (u : Url) :
  cont w = Some (mkCont Digest_handler data op) ->
  resp_location w = Some old ->
  UrlParse host first = Some u ->
  CacheKeyDigestFromUrlSet host u = true ->
  let opened := mkEvent TS_EVENT_CACHE_OPEN_READ connp b1 in
  let ready := mkEvent TS_EVENT_VCONN_READ_READY connp (first :: more) in
  let hit := deliver_all host [opened; ready; mkEvent TS_EVENT_CACHE_OPEN_READ c3 b3] w in
  let miss := deliver_all host [opened; ready; mkEvent TS_EVENT_CACHE_OPEN_READ_FAILED c3 b3] w in
  (finished hit = true
   /\ resp_location (world_of hit) = Some [UrlStringGet host u]
   /\ reenables (world_of hit) = S (reenables w))
  /\ (finished miss = true
      /\ resp_location (world_of miss) = Some old
      /\ count is_header_write (world_of miss) = count is_header_write w
      /\ reenables (world_of miss) = S (reenables w)).
Proof.
  destruct w as [loc dig tr nk k], data as [u0 [kid kd] f i rb].
  cbn [cont resp_location]. intros -> -> Hparse Hkey. cbv zeta.
  cbn [deliver_all]. unfold bind. api. rewrite Hparse, Hkey. cbn [negb].
  observe. repeat split; reflexivity.
Qed.

(** *** What the scanner accepts and where it stops *)

Lemma nat_of_ascii_diff (a b : ascii) :
  a <> b -> (Z.of_nat (nat_of_ascii a) - Z.of_nat (nat_of_ascii b) <> 0)%Z.
Proof.
  intros Hab Hz. apply Hab.
  rewrite <- (ascii_nat_embedding a), <- (ascii_nat_embedding b). f_equal. lia.
Qed.

(** strncasecmp against a pattern without NUL in its first n characters is
    zero exactly when the first n characters agree up to case. *)
Lemma strncasecmp_zero_iff (n : nat) :
  forall s p,
    (n <= String.length p)%nat ->
    (forall i, (i < n)%nat -> tolower (char_at (string_drop i p)) <> zero) ->
    (strncasecmp s p n = 0%Z <-> lowercase (substring 0 n s) = lowercase (substring 0 n p)).
Proof.
  induction n as [|n IH]; intros s p Hlen Hnz.
  - cbn [strncasecmp]. destruct s, p; cbn; tauto.
  - destruct p as [|pc p]; [cbn [String.length] in Hlen; lia|].
    assert (Hpc : tolower pc <> zero) by (apply (Hnz 0%nat); lia).
    assert (Hnz' : forall i, (i < n)%nat -> tolower (char_at (string_drop i p)) <> zero).
    { intros i Hi. apply (Hnz (S i)). lia. }
    cbn [String.length] in Hlen.
    cbn [strncasecmp char_at string_tail].
    destruct s as [|sc s]; cbn [char_at string_tail substring lowercase].
    + destruct (Ascii.eqb_spec (tolower zero) (tolower pc)) as [E|E]; cbn [negb].
      * exfalso. apply Hpc. rewrite <- E. reflexivity.
      * split; [intros H; exfalso; revert H; apply nat_of_ascii_diff, E|discriminate].
    + destruct (Ascii.eqb_spec (tolower sc) (tolower pc)) as [E|E]; cbn [negb].
      * rewrite E. destruct (Ascii.eqb_spec (tolower pc) zero) as [Z0|_]; [contradiction|].
        rewrite (IH s p) by (lia || assumption).
        split; [intros ->; reflexivity|intros H; injection H; auto].
      * split; [intros H; exfalso; revert H; apply nat_of_ascii_diff, E|].
        intros H. injection H as H _. contradiction.
Qed.

Lemma find_app {A : Type} (p : A -> bool) (a b : list A) :
  find p (a ++ b) = match find p a with Some x => Some x | None => find p b end.
Proof.
  induction a as [|x a IH]; cbn [app find]; [reflexivity|].
  destruct (p x); [reflexivity|exact IH].
Qed.

Lemma scan_values_find (values : list string) :
  forall i,
    match scan_values values i with
    | Some j => (i <= j)%nat
                /\ find accepted values = Some (nth (j - i) values EmptyString)
    | None => find accepted values = None
    end.
Proof.
  induction values as [|v values IH]; intros i; cbn [scan_values find]; [reflexivity|].
  change (accepted v) with (negb (skipped v)). destruct (skipped v); cbn [negb].
  - specialize (IH (S i)). destruct (scan_values values (S i)) as [j|]; [|exact IH].
    destruct IH as [Hle Hf]. split; [lia|].
    replace (j - i)%nat with (S (j - S i)) by lia. exact Hf.
  - rewrite Nat.sub_diag. split; [lia|reflexivity].
Qed.

Lemma first_candidate_find (fields : list (list string)) :
  forall field,
    match first_candidate fields field with
    | Some (f, i) =>
        (field <= f)%nat
        /\ find accepted (List.concat fields)
           = Some (nth i (nth (f - field) fields []) EmptyString)
    | None => find accepted (List.concat fields) = None
    end.
Proof.
  induction fields as [|values fields IH]; intros field;
    cbn [first_candidate List.concat find]; [reflexivity|].
  rewrite find_app.
  pose proof (scan_values_find values 0) as Hv.
  destruct (scan_values values 0) as [i|].
  - destruct Hv as [_ Hv]. rewrite Hv, Nat.sub_diag, Nat.sub_0_r. split; [lia|reflexivity].
  - rewrite Hv. specialize (IH (S field)).
    destruct (first_candidate fields (S field)) as [[f i]|]; [|exact IH].
    destruct IH as [Hle Hf]. split; [lia|].
    replace (f - field)%nat with (S (f - S field)) by lia. exact Hf.
Qed.

(** The scan does what [first_candidate] says and releases, in order, the
    fields it gives up on. *)
Lemma scan_fields_exact (fields : list (list string)) :
  forall field w,
    scan_fields fields field w
    = Ok (first_candidate fields field)
         (mkWorld (resp_location w) (resp_digest w)
            (map Call_TSHandleMLocRelease
               (rev (map digest_loc
                       (seq field
                          (match first_candidate fields field with
                           | Some (f, _) => f - field
                           | None => List.length fields
                           end))))
             ++ trace w)
            (next_key w) (cont w)).
Proof.
  induction fields as [|values fields IH]; intros field w;
    cbn [scan_fields first_candidate].
  - destruct w; reflexivity.
  - destruct (scan_values values 0) as [i|].
    + rewrite Nat.sub_diag. destruct w; reflexivity.
    + unfold bind, TSHandleMLocRelease, call. rewrite IH.
      cbn [resp_location resp_digest trace next_key cont].
      pose proof (first_candidate_find fields (S field)) as Hf.
      assert (E : forall k, map Call_TSHandleMLocRelease (rev (map digest_loc (seq (S field) k)))
                            ++ Call_TSHandleMLocRelease (digest_loc field) :: trace w
                            = map Call_TSHandleMLocRelease
                                (rev (map digest_loc (seq field (S k)))) ++ trace w).
      { intros k. cbn [seq map rev]. rewrite map_app, <- app_assoc. reflexivity. }
      destruct (first_candidate fields (S field)) as [[f i]|].
      * destruct Hf as [Hle _]. rewrite E. replace (f - field)%nat with (S (f - S field)) by lia.
        reflexivity.
      * rewrite E. reflexivity.
Qed.

Lemma has_candidate_first (digest : list (list string)) (field : nat) :
  has_candidate digest = match first_candidate digest field with Some _ => true | None => false end.
Proof.
  revert field. induction digest as [|values digest IH]; intros field;
    cbn [first_candidate]; [reflexivity|].
  unfold has_candidate in *. cbn [existsb].
  assert (H : existsb accepted values
              = match scan_values values 0 with Some _ => true | None => false end).
  { generalize 0%nat. induction values as [|v values IHv]; intros n; cbn [existsb scan_values];
      [reflexivity|].
    change (accepted v) with (negb (skipped v)).
    destruct (skipped v); cbn [negb orb]; [apply IHv|reflexivity]. }
  rewrite H. destruct (scan_values values 0); cbn [orb]; [reflexivity|apply IH].
Qed.

Lemma has_candidate_intro (digest : list (list string)) (vs : list string) (v : string) :
  In vs digest -> In v vs -> skipped v = false -> has_candidate digest = true.
Proof.
  intros Hvs Hv Hs. apply existsb_exists. exists vs. split; [exact Hvs|].
  apply existsb_exists. exists v. split; [exact Hv|]. unfold accepted. rewrite Hs. reflexivity.
Qed.

Lemma undecodable_start (host : Host) (location : option (list string))
    (digest : list (list string)) :
  (forall field value, In field digest -> In value field -> skipped value = false ->
     Base64Decode host (string_drop 8 value) = None) ->
  undecodable_inv host location digest
    (http_send_response_hdr host (init_world location digest)).
Proof.
  intros Hbad. unfold undecodable_inv, init_world.
  set (bound := if has_candidate digest then 1%nat else 0%nat).
  api_send. branches reduce.
  all: try scan; branches reduce.
  all: observe; repeat split; try lia; try reflexivity.
  - subst bound. destruct Hfound as (_ & Hin & Hin' & Hs). rewrite Nat.sub_0_r in *.
    rewrite (has_candidate_intro digest _ _ Hin Hin' Hs). lia.
  - destruct Hfound as (_ & Hin & Hin' & Hs). rewrite Nat.sub_0_r in *.
    cbn [cont_data digest_field idx]. apply (Hbad _ _ Hin Hin' Hs).
Qed.

Lemma undecodable_step (host : Host) (location : option (list string))
    (digest : list (list string)) (e : HostEvent) (w : World) :
  undecodable_inv host location digest (Ok tt w) ->
  undecodable_inv host location digest (deliver host e w).
Proof.
  destruct w as [loc dig tr nk [c|]]; [|intros H; exact H].
  destruct c as [hd [u [kid kd] f i rb] op], e as [event conn blocks].
  unfold undecodable_inv, count.
  set (bound := if has_candidate digest then 1%nat else 0%nat).
  cbn [world_of cont trace resp_location resp_digest cont_handler cont_data digest_field idx].
  intros (-> & -> & Hd & Hw & Hc & -> & Hdec).
  api. destruct event; rewrite ?Hdec; branches reduce; observe; repeat split; assumption.
Qed.

(** C3, as the code has it.  A Digest value shorter than 52 characters or
    without the SHA-256= prefix (whatever its case) is skipped and triggers
    no cache read: when no value passes these two checks, no read is ever
    issued.  The first value, in the order of the header, that passes them
    is accepted without being decoded, and when the response has a Location
    URL a cache key can be made from, it triggers the URL-phase lookup: one
    read, by the Location URL, although the value does not decode.  When
    every accepted value fails to decode, no lookup by digest is ever issued
    and the Location field is never written: the response passes through
    unchanged. *)
Theorem undecodable_digest_never_read (host : Host) (location : option (list string))
    (digest : list (list string)) (evs : list HostEvent) :
  (forall field value, In field digest -> In value field -> skipped value = false ->
     Base64Decode host (string_drop 8 value) = None) ->
  let w := world_of (run host evs (init_world location digest)) in
  let o := http_send_response_hdr host (init_world location digest) in
  (count is_digest_read w = 0%nat
   /\ (count is_cache_read w <= if has_candidate digest then 1 else 0)%nat
   /\ resp_location w = location
   /\ count is_header_write w = 0%nat)
  /\ (forall value,
        skipped value = false
        <-> (52 <= String.length value)%nat
            /\ lowercase (substring 0 8 value) = "sha-256=")
  /\ count is_cache_read (world_of o)
     = (if qualifies host location digest then 1 else 0)%nat
  /\ match cont (world_of o) with
     | Some c =>
         let value := TSMimeHdrFieldValueStringGet
                        (nth (digest_field (cont_data c)) digest []) (idx (cont_data c)) in
         qualifies host location digest = true
         /\ cont_handler c = Location_handler
         /\ option_map (fun u => OpCacheRead (KeyOfUrl u))
              (match location with
               | Some values => UrlParse host (TSMimeHdrFieldValueStringGet values 0)
               | None => None
               end)
            = Some (awaiting c)
         /\ find accepted (List.concat digest) = Some value
         /\ Base64Decode host (string_drop 8 value) = None
     | None => qualifies host location digest = false
     end.
Proof.
  intros Hbad. cbv zeta.
  pose proof (undecodable_start host location digest Hbad) as H0.
  split; [|split; [|split]].
  - assert (H : undecodable_inv host location digest
                  (run host evs (init_world location digest))).
    { unfold run, bind.
      destruct (http_send_response_hdr host (init_world location digest)) as [[] w'|w'];
        [|exact H0].
      apply deliver_all_invariant; [apply undecodable_step|exact H0]. }
    destruct H as (Hl & _ & Hd & Hw & Hc & _). repeat split; assumption.
  - intros value. unfold skipped, strlen.
    rewrite orb_false_iff, negb_false_iff, Z.ltb_ge, Z.eqb_eq.
    rewrite (strncasecmp_zero_iff 8 value "SHA-256=").
    + change (lowercase (substring 0 8 "SHA-256=")) with "sha-256=".
      split; intros [H1 H2]; (split; [lia|exact H2]).
    + cbn. lia.
    + intros i Hi. do 8 (destruct i as [|i]; [cbn; discriminate|]). lia.
  - clear H0 Hbad. unfold init_world.
    remember (qualifies host location digest) as q eqn:Hq.
    unfold qualifies in Hq. rewrite (has_candidate_first digest 0) in Hq.
    api_send. branches ltac:(cbn [world_of negb]).
    all: try (rewrite scan_fields_exact;
              cbn [resp_location resp_digest trace next_key cont];
              revert Hq; destruct (first_candidate digest 0) as [[f i]|]; intros Hq).
    all: repeat match goal with
           | H : ClientRespGet _ = _ |- _ => rewrite H in Hq; clear H
           | H : UrlParse _ _ = _ |- _ => rewrite H in Hq; clear H
           | H : CacheKeyDigestFromUrlSet _ _ = _ |- _ => rewrite H in Hq; clear H
           end.
    all: cbn [andb] in Hq; try discriminate Hq; observe; reflexivity.
  - unfold undecodable_inv in H0. destruct H0 as (_ & _ & _ & _ & _ & H0).
    revert H0. unfold init_world.
    pose proof (first_candidate_find digest 0) as Hfind.
    remember (qualifies host location digest) as q eqn:Hq.
    unfold qualifies in Hq. rewrite (has_candidate_first digest 0) in Hq.
    api_send. branches ltac:(cbn [world_of negb cont]).
    all: try (rewrite scan_fields_exact;
              cbn [resp_location resp_digest trace next_key cont];
              revert Hq Hfind; destruct (first_candidate digest 0) as [[f i]|];
              intros Hq Hfind).
    all: repeat match goal with
           | H : ClientRespGet _ = _ |- _ => rewrite H in Hq; clear H
           | H : UrlParse _ _ = _ |- _ => rewrite H in *; clear H
           | H : CacheKeyDigestFromUrlSet _ _ = _ |- _ => rewrite H in Hq; clear H
           end.
    all: cbn [andb] in Hq; try discriminate Hq; try subst q;
      cbn [world_of cont cont_handler cont_data awaiting digest_field idx
           resp_digest option_map];
      try (intros _; reflexivity).
    intros [_ Hdec]. destruct Hfind as [_ Hfind]. rewrite Nat.sub_0_r in Hfind.
    repeat split; assumption.
Qed.

(** C4, as the code has it.  When the accepted Digest value fails to decode
    after the URL-phase miss, the resolution attempt ends there: the handler
    releases what it holds and resumes the response; it issues no lookup,
    looks at no further Digest value and leaves the header as it is. *)
Theorem decode_failure_ends_resolution (host : Host) (data : SendData) (w : World) :
  Base64Decode host
    (string_drop 8
       (TSMimeHdrFieldValueStringGet (nth (digest_field data) (resp_digest w) []) (idx data)))
  = None ->
  location_handler host data TS_EVENT_CACHE_OPEN_READ_FAILED w
  = Ok tt (mkWorld (resp_location w) (resp_digest w)
             (Call_TSfree :: Call_TSHttpTxnReenable
              :: Call_TSHandleMLocRelease hdr_loc
              :: Call_TSHandleMLocRelease location_loc
              :: Call_TSHandleMLocRelease url_loc
              :: Call_TSCacheKeyDestroy (key_id (key data))
              :: Call_TSHandleMLocRelease (digest_loc (digest_field data))
              :: Call_TSContDestroy Send_contp :: trace w)
             (next_key w) None).
Proof.
  destruct w as [loc dig tr nk k], data as [u0 [kid kd] f i rb].
  cbn [resp_digest digest_field idx]. intros Hdec.
  api. rewrite Hdec. reflexivity.
Qed.

(** ** The body transform *)

Ltac api_t :=
  cbv beta iota zeta delta
    [ bind ret call abort set_cont
      TSmalloc TSfree TSLogError TSHttpTxnReenable TSHandleMLocRelease
      TSIOBufferCreate TSIOBufferDestroy TSCacheKeyCreate TSCacheKeyDestroy TSContDestroy
      TSCacheKeyDestroy_opt TSAssert_unexpected_event
      write_vconn_write_complete write_handler cache_open_write cache_open_write_failed
      transform_vconn_write_complete client_request_url
      TransformData.key TransformData.bufp TransformData.c TransformData.viop
      WriteData.connp WriteData.bufp
      resp_location resp_digest trace next_key cont key_id key_digest negb
      world_of aborted count ].

Ltac tally := cbn [filter is_log is_vconn_write is_vconn_close is_cache_write is_acquire
                   is_release is_key_create is_key_destroy List.length Nat.eqb].

(** C7.  When the open-for-write succeeds, the key the transform held is
    destroyed; what the handler writes to the cache vconnection is the
    client request URL, byte for byte, and nothing else (nothing at all when
    there is no request URL to be had); and when the write completes the
    write continuation closes that vconnection, which commits the
    digest -> URL entry. *)
Theorem open_write_stores_request_url (host : Host) (bufp : option (list byte)) (viop : Z)
    (c : SHA256.SHA256_CTX) (k : TSCacheKey) (connp : nat) (w : World) :
  match cache_open_write host (TransformData.mk bufp viop c (Some k)) connp w with
  | Ok wd w1 =>
      count (is_key_destroy (key_id k)) w1 = S (count (is_key_destroy (key_id k)) w)
      /\ filter is_vconn_write (trace w1)
         = match client_request_url host with
           | Some value => [Call_TSVConnWrite connp value]
           | None => []
           end ++ filter is_vconn_write (trace w)
      /\ WriteData.connp wd = connp
      /\ write_handler host wd TS_EVENT_VCONN_WRITE_COMPLETE w1
         = Ok tt (mkWorld (resp_location w1) (resp_digest w1)
                    (Call_TSfree :: Call_TSIOBufferDestroy :: Call_TSVConnClose connp
                     :: Call_TSContDestroy Write_contp :: trace w1)
                    (next_key w1) (cont w1))
  | Abort _ => False
  end.
Proof.
  destruct w as [loc dig tr nk k0], k as [kid kd].
  api_t.
  destruct (ClientReqGet host); [destruct (HdrUrlGet host); [destruct (ReqUrlStringGet host)|]|];
    cbn [trace]; tally; rewrite ?Nat.eqb_refl; cbn [List.length app]; repeat split.
Qed.

(** C9, as the code has it.  When the request URL cannot be retrieved at
    open-write time the stage stops without aborting; like the open-failure
    branch it destroys its key, once; it writes nothing to the cache
    vconnection and does not close it, so no mapping is committed.  It logs
    only when the request header itself cannot be retrieved; the
    open-failure branch never logs. *)
Theorem request_url_failure_commits_nothing (host : Host) (bufp : option (list byte))
    (viop : Z) (c : SHA256.SHA256_CTX) (k : TSCacheKey) (connp : nat) (w : World) :
  client_request_url host = None ->
  let data := TransformData.mk bufp viop c (Some k) in
  let o := cache_open_write host data connp w in
  let f := cache_open_write_failed data w in
  aborted o = false
  /\ count (is_key_destroy (key_id k)) (world_of o) = S (count (is_key_destroy (key_id k)) w)
  /\ count (is_key_destroy (key_id k)) (world_of f) = S (count (is_key_destroy (key_id k)) w)
  /\ count is_vconn_write (world_of o) = count is_vconn_write w
  /\ count is_vconn_close (world_of o) = count is_vconn_close w
  /\ count is_log (world_of o) = ((if ClientReqGet host then 0 else 1) + count is_log w)%nat
  /\ count is_log (world_of f) = count is_log w.
Proof.
  destruct w as [loc dig tr nk k0], k as [kid kd]. cbv zeta. api_t.
  destruct (ClientReqGet host); [destruct (HdrUrlGet host); [intros ->|intros _]|intros _];
    cbn [trace]; tally; rewrite ?Nat.eqb_refl; cbn [List.length]; repeat split.
Qed.

Lemma to_int_small (z : Z) : (- 2 ^ 31 <= z < 2 ^ 31)%Z -> to_int z = z.
Proof.
  intros Hz. unfold to_int. rewrite Z.mod_small; lia.
Qed.

(** Every delivery with bytes in it goes through the digest: after the
    event the context is the one before it (a fresh one on the first event)
    fed with the blocks of the reader, in order. *)
Lemma vconn_write_ready_digests_blocks (host : Host) (data : TransformData.t) (vio : VIO)
    (w : World) :
  vio_buffer vio = true ->
  (0 < TSIOBufferReaderAvail (vio_blocks vio) < 2 ^ 31)%Z ->
  match vconn_write_ready host data vio w with
  | Ok (data', _) _ =>
      TransformData.c data'
      = feed_blocks (match TransformData.bufp data with
                     | None => SHA256.SHA256_Init
                     | Some _ => TransformData.c data
                     end) (vio_blocks vio)
  | Abort _ => False
  end.
Proof.
  intros Hbuf Havail.
  destruct data as [b v c k], vio as [vb blocks nd nb], w as [loc dig tr nk k0].
  cbn [vio_buffer vio_blocks] in Hbuf, Havail. subst vb.
  unfold vconn_write_ready.
  cbn [TransformData.bufp TransformData.c TransformData.key TransformData.viop
       vio_buffer vio_blocks vio_ndone vio_nbytes negb].
  rewrite (to_int_small (TSIOBufferReaderAvail blocks)) by lia.
  destruct (Z.gtb_spec (TSIOBufferReaderAvail blocks) 0) as [_|Hle]; [|lia].
  destruct b as [b|]; api_t;
    cbn [TransformData.bufp TransformData.c TransformData.key TransformData.viop
         vio_buffer vio_blocks vio_ndone vio_nbytes];
    destruct (_ >? 0)%Z; [reflexivity| |reflexivity|];
    destruct (CacheKeyDigestSet host _); reflexivity.
Qed.

(** When the body has ended and TSCacheKeyDigestSet fails, the handler
    returns with the key it has just created still alive and nothing
    outstanding that would destroy it. *)
Lemma vconn_write_ready_digest_set_failure (host : Host) (out : list byte) (viop : Z)
    (c : SHA256.SHA256_CTX) (k0 : option TSCacheKey) (ndone nbytes : Z) (w : World) :
  (to_int (nbytes - ndone) <= 0)%Z ->
  CacheKeyDigestSet host (SHA256.SHA256_Final c) = false ->
  vconn_write_ready host (TransformData.mk (Some out) viop c k0) (mkVIO true [] ndone nbytes) w
  = Ok (TransformData.mk (Some out) (to_int ndone) c (Some (mkKey (next_key w) KeyUnset)),
        mkVIO true [] ndone nbytes)
       (mkWorld (resp_location w) (resp_digest w)
          (Call_TSCacheKeyCreate (next_key w)
           :: Call_TSVIOReenable
           :: Call_TSVIONBytesSet (to_int ndone)
           :: Call_TSContCall TS_EVENT_VCONN_WRITE_COMPLETE :: trace w)
          (S (next_key w)) (cont w)).
Proof.
  intros Htodo Hset. destruct w as [loc dig tr nk k].
  unfold vconn_write_ready.
  cbn [TransformData.bufp TransformData.c TransformData.key TransformData.viop
       vio_buffer vio_blocks vio_ndone vio_nbytes negb].
  change (to_int (TSIOBufferReaderAvail [])) with 0%Z. cbn [Z.gtb Z.compare].
  api_t. cbn [vio_buffer vio_blocks vio_ndone vio_nbytes].
  destruct (Z.gtb_spec (to_int (nbytes - ndone)) 0) as [Hgt|_]; [lia|].
  rewrite Hset. reflexivity.
Qed.

(** ** Keys on the send path *)

Ltac count_keys :=
  unfold count; cbn [trace world_of cont];
  cbn [filter is_any_key_create is_any_key_destroy List.length app];
  rewrite ?filter_releases by reflexivity;
  cbn [filter is_any_key_create is_any_key_destroy List.length app].

Lemma deliver_keys_balanced (host : Host) (e : HostEvent) (w : World) :
  keys_balanced (Ok tt w) -> keys_balanced (deliver host e w).
Proof.
  destruct w as [loc dig tr nk [c|]]; [|intros H; exact H].
  destruct c as [hd [u [kid kd] f i rb] op], e as [event conn blocks].
  unfold keys_balanced, count. cbn [cont trace]. intros [Hc Hd].
  destruct hd; api; branches reduce; count_keys; lia.
Qed.

Lemma http_send_response_hdr_keys_balanced (host : Host) (location : option (list string))
    (digest : list (list string)) :
  keys_balanced (http_send_response_hdr host (init_world location digest)).
Proof.
  unfold keys_balanced, init_world. api_send. branches reduce.
  all: try scan; branches reduce.
  all: count_keys; lia.
Qed.

(** X12.  On the send path the one key of a session is destroyed exactly
    once on every terminal branch, and never while a continuation still
    needs it. *)
Lemma send_path_key_destroyed_once (host : Host) (location : option (list string))
    (digest : list (list string)) (evs : list HostEvent) :
  keys_balanced (run host evs (init_world location digest)).
Proof.
  unfold run, bind.
  pose proof (http_send_response_hdr_keys_balanced host location digest) as H.
  destruct (http_send_response_hdr host (init_world location digest)) as [[] w'|w'];
    [|exact H].
  apply deliver_all_invariant; [apply deliver_keys_balanced|exact H].
Qed.

(** ** Concrete sessions *)

(** Dedup rewrite: with the digest recorded and the body cached under the
    recorded URL, the announced mirror_b is rewritten to origin_a. *)
Example dedup_rewrite :
  serve (example_proxy table_full) response_b
  = Ok tt (mkWorld (Some [origin_a]) [[digest_value_abc]]
             (trace (world_of (serve (example_proxy table_full) response_b))) 1 None)
  /\ reenables (world_of (serve (example_proxy table_full) response_b)) = 1%nat.
Proof. vm_compute. split; reflexivity. Qed.

(** Against C1 as written: the digest-phase open-for-read succeeds and the
    stored value parses as a URL, yet the Location field is not rewritten,
    because nothing is cached under the recovered URL. *)
Lemma digest_hit_without_rewrite :
  let host := example_proxy table_digest_only in
  let o := serve host response_b in
  count is_digest_read (world_of o) = 1%nat
  /\ count is_vconn_read (world_of o) = 1%nat
  /\ UrlParse host origin_a = Some origin_a
  /\ finished o = true
  /\ resp_location (world_of o) = Some [mirror_b]
  /\ resp_location (world_of o) <> Some [origin_a]
  /\ count is_header_write (world_of o) = 0%nat.
Proof. vm_compute. repeat split; discriminate. Qed.

Lemma digest_hit_rewrites_when_url_cached_witness :
  let host := example_proxy table_full in
  let opened := mkEvent TS_EVENT_CACHE_OPEN_READ (mkVConn 0 origin_a []) [] in
  let ready := mkEvent TS_EVENT_VCONN_READ_READY (mkVConn 0 origin_a []) [origin_a] in
  let hit := deliver_all host [opened; ready; mkEvent TS_EVENT_CACHE_OPEN_READ (mkVConn 1 "abc" []) []]
               world_digest_phase in
  finished hit = true
  /\ resp_location (world_of hit) = Some [origin_a]
  /\ reenables (world_of hit) = 1%nat.
Proof.
  exact (proj1 (digest_hit_rewrites_when_url_cached
                  (example_proxy table_full) world_digest_phase data_digest_phase
                  (OpCacheRead (KeyOfDigest digest_abc)) [mirror_b]
                  (mkVConn 0 origin_a []) (mkVConn 1 "abc" []) [] [] []
                  origin_a [] origin_a eq_refl eq_refl eq_refl eq_refl)).
Defined.

(** Against C3 as written: a value that is long enough and carries the prefix
    is accepted although its payload does not decode to 32 bytes, and the
    URL-phase cache read is issued for it. *)
Lemma undecodable_value_triggers_url_lookup :
  let host := example_proxy [] in
  let o := serve host response_b_long_only in
  Base64Decode host (string_drop 8 digest_value_long) = None
  /\ skipped digest_value_long = false
  /\ count is_cache_read (world_of o) = 1%nat
  /\ count is_cache_read (world_of o) <> 0%nat.
Proof. vm_compute. repeat split; discriminate. Qed.

Lemma undecodable_digest_never_read_witness :
  let host := example_proxy table_full in
  let w := world_of (run host
                         [mkEvent TS_EVENT_CACHE_OPEN_READ_FAILED (mkVConn 0 EmptyString []) []]
                         response_b_long_only) in
  (count is_digest_read w = 0%nat
   /\ (count is_cache_read w <= 1)%nat
   /\ resp_location w = Some [mirror_b]
   /\ count is_header_write w = 0%nat)
  /\ count is_cache_read (world_of (http_send_response_hdr host response_b_long_only))
     = 1%nat.
Proof.
  cbv zeta.
  destruct (undecodable_digest_never_read (example_proxy table_full) (Some [mirror_b])
              [[digest_value_long]]
              [mkEvent TS_EVENT_CACHE_OPEN_READ_FAILED (mkVConn 0 EmptyString []) []])
    as (Hrun & _ & Hread & _).
  - intros field value [<-|[]] [<-|[]] _. vm_compute. reflexivity.
  - split; [exact Hrun|exact Hread].
Defined.

(** Against C4 as written: with an undecodable value in front of the good one,
    in the same Digest field or in an earlier Digest field, the attempt ends
    at the decode failure; the good value, which alone leads to the
    rewrite, is never looked up. *)
Lemma decode_failure_stops_scanning :
  let host := example_proxy table_full in
  Base64Decode host (string_drop 8 digest_value_long) = None
  /\ Base64Decode host (string_drop 8 digest_value_abc) = Some digest_abc
  /\ resp_location (world_of (serve host response_b)) = Some [origin_a]
  /\ finished (serve host response_b_long_first) = true
  /\ count is_digest_read (world_of (serve host response_b_long_first)) = 0%nat
  /\ resp_location (world_of (serve host response_b_long_first)) = Some [mirror_b]
  /\ finished (serve host response_b_long_field_first) = true
  /\ count is_digest_read (world_of (serve host response_b_long_field_first)) = 0%nat
  /\ resp_location (world_of (serve host response_b_long_field_first)) = Some [mirror_b].
Proof. vm_compute. repeat split. Qed.

Lemma decode_failure_ends_resolution_witness :
  location_handler (example_proxy table_full)
    (mkSendData mirror_b (mkKey 0 (KeyOfUrl mirror_b)) 0 0 false)
    TS_EVENT_CACHE_OPEN_READ_FAILED
    (mkWorld (Some [mirror_b]) [[digest_value_long; digest_value_abc]] [] 1 None)
  = Ok tt (mkWorld (Some [mirror_b]) [[digest_value_long; digest_value_abc]]
             [ Call_TSfree; Call_TSHttpTxnReenable;
               Call_TSHandleMLocRelease hdr_loc;
               Call_TSHandleMLocRelease location_loc;
               Call_TSHandleMLocRelease url_loc;
               Call_TSCacheKeyDestroy 0;
               Call_TSHandleMLocRelease (digest_loc 0);
               Call_TSContDestroy Send_contp ]
             1 None).
Proof.
  apply (decode_failure_ends_resolution (example_proxy table_full)
           (mkSendData mirror_b (mkKey 0 (KeyOfUrl mirror_b)) 0 0 false)
           (mkWorld (Some [mirror_b]) [[digest_value_long; digest_value_abc]] [] 1 None)).
  vm_compute. reflexivity.
Defined.

(** ** Concrete transforms *)

(** Write-then-resolve: a three-byte body arrives in one delivery; the
    transform copies it through, and asks for a cache write under the
    SHA-256 digest of the body. *)
Example body_digest_is_recorded :
  let o := vconn_write_ready (example_proxy []) (TransformData.mk None 0 SHA256.SHA256_Init None)
             (mkVIO true [body_abc] 0 3) (init_world None []) in
  match o with
  | Ok (data, vio) w =>
      TransformData.bufp data = Some body_abc
      /\ TransformData.key data = Some (mkKey 0 (KeyOfDigest digest_abc))
      /\ vio_blocks vio = []
      /\ vio_ndone vio = 3%Z
      /\ count is_cache_write w = 1%nat
      /\ In (Call_TSCacheWrite (KeyOfDigest digest_abc)) (trace w)
  | Abort _ => False
  end.
Proof. vm_compute. repeat split. left. reflexivity. Qed.

(** The write that follows: the request URL goes to the cache vconnection
    the open handed over. *)
Example request_url_is_written :
  cache_open_write (example_proxy []) data_write_phase 7 (init_world None [])
  = Ok (WriteData.mk 7 origin_a)
       (mkWorld None []
          [ Call_TSVConnWrite 7 origin_a;
            Call_TSHandleMLocRelease req_hdr_loc;
            Call_TSHandleMLocRelease req_url_loc;
            Call_TSIOBufferCreate;
            Call_TSContCreate Write_contp;
            Call_TSmalloc;
            Call_TSCacheKeyDestroy 0 ] 0 None).
Proof. reflexivity. Qed.

(** Against C9 as written: when TSHttpHdrUrlGet fails nothing is logged, and
    the stage returns holding what it has just acquired (the write data, the
    write continuation and its buffer, none of them given back), where the
    open-failure branch acquires nothing; the two outcomes differ. *)
Lemma request_url_failure_differs_from_open_failure :
  let host := with_request (example_proxy []) true false None in
  let o := cache_open_write host data_write_phase 7 (init_world None []) in
  let f := cache_open_write_failed data_write_phase (init_world None []) in
  client_request_url host = None
  /\ count is_log (world_of o) = 0%nat
  /\ count is_acquire (world_of o) = 3%nat
  /\ count is_release (world_of o) = 0%nat
  /\ count is_acquire (world_of f) = 0%nat
  /\ trace (world_of o) <> trace (world_of f).
Proof. vm_compute. repeat split. discriminate. Qed.

Lemma request_url_failure_commits_nothing_witness :
  let host := with_request (example_proxy []) false true (Some origin_a) in
  let o := cache_open_write host data_write_phase 7 (init_world None []) in
  aborted o = false
  /\ count (is_key_destroy 0) (world_of o) = 1%nat
  /\ count is_vconn_write (world_of o) = 0%nat
  /\ count is_vconn_close (world_of o) = 0%nat
  /\ count is_log (world_of o) = 1%nat.
Proof.
  destruct (request_url_failure_commits_nothing
              (with_request (example_proxy []) false true (Some origin_a))
              (Some []) 3%Z SHA256.SHA256_Init (mkKey 0 (KeyOfDigest digest_abc)) 7
              (init_world None []) eq_refl)
    as (Ha & Hk & _ & Hw & Hc & Hl & _).
  repeat split; assumption.
Defined.

(** C6 on the code: the body ends, the digest is finalized, the key is
    created, TSCacheKeyDigestSet fails, and vconn_write_ready returns.  The
    key has been created and is never destroyed: no cache write is
    outstanding whose completion would destroy it, and the write-complete
    event that ends the transform frees the data that holds the key. *)
Theorem digest_set_failure_leaks_key :
  let host := with_key_digest_set (example_proxy []) (fun _ => false) in
  let leak :=
    (r <- vconn_write_ready host (TransformData.mk None 0 SHA256.SHA256_Init None)
            (mkVIO true [body_abc] 0 3) ;;
     transform_handler host (fst r) TS_EVENT_VCONN_WRITE_COMPLETE 0 (snd r))
      (init_world None []) in
  match vconn_write_ready host (TransformData.mk None 0 SHA256.SHA256_Init None)
          (mkVIO true [body_abc] 0 3) (init_world None []) with
  | Ok (data, _) w =>
      TransformData.key data = Some (mkKey 0 KeyUnset)
      /\ count (is_key_create 0) w = 1%nat
      /\ count (is_key_destroy 0) w = 0%nat
      /\ count is_cache_write w = 0%nat
  | Abort _ => False
  end
  /\ match leak with
     | Ok r w =>
         r_data r = None
         /\ count (is_key_create 0) w = 1%nat
         /\ count is_any_key_destroy w = 0%nat
     | Abort _ => False
     end.
Proof. vm_compute. repeat split. Qed.

(** The same body with a proxy that accepts the digest: the key goes to the
    cache write, and both completions of that write destroy it. *)
Example key_destroyed_after_cache_write :
  let host := example_proxy [] in
  match vconn_write_ready host (TransformData.mk None 0 SHA256.SHA256_Init None)
          (mkVIO true [body_abc] 0 3) (init_world None []) with
  | Ok (data, vio) w =>
      count (is_key_destroy 0)
        (world_of (transform_handler host data TS_EVENT_CACHE_OPEN_WRITE 7 vio w)) = 1%nat
      /\ count (is_key_destroy 0)
           (world_of (transform_handler host data TS_EVENT_CACHE_OPEN_WRITE_FAILED 0 vio w)) = 1%nat
  | Abort _ => False
  end.
Proof. vm_compute. repeat split. Qed.

(** * Further properties of the plugin *)

(** ** The scanner *)

(** X1.  The acceptance test of the scanner: a Digest value is accepted
    exactly when it is at least 52 characters long (the 8 of the prefix and
    the 44 of a base64 SHA-256 digest) and its first 8 characters read
    SHA-256= in any letter case. *)
Theorem accepted_iff (value : string) :
  skipped value = false
  <-> (52 <= String.length value)%nat /\ lowercase (substring 0 8 value) = "sha-256=".
Proof.
  unfold skipped, strlen. rewrite orb_false_iff, negb_false_iff, Z.ltb_ge, Z.eqb_eq.
  rewrite (strncasecmp_zero_iff 8 value "SHA-256=").
  - change (lowercase (substring 0 8 "SHA-256=")) with "sha-256=".
    split; intros [H1 H2]; (split; [lia|exact H2]).
  - cbn. lia.
  - intros i Hi. do 8 (destruct i as [|i]; [cbn; discriminate|]). lia.
Qed.

(** X2.  The scan stops at the first accepted value of the header, in the
    order of the fields and of the values in them, and has released exactly
    the Digest fields before it (all of them when no value is accepted). *)
Theorem scanner_selects_first_accepted (digest : list (list string)) (w : World) :
  scan_fields digest 0 w
  = Ok (first_candidate digest 0)
       (mkWorld (resp_location w) (resp_digest w)
          (map Call_TSHandleMLocRelease
             (rev (map digest_loc
                     (seq 0 (fields_given_up digest (first_candidate digest 0)))))
           ++ trace w)
          (next_key w) (cont w))
  /\ option_map (fun fi => nth (snd fi) (nth (fst fi) digest []) EmptyString)
                (first_candidate digest 0)
     = find accepted (List.concat digest).
Proof.
  split.
  - rewrite scan_fields_exact. unfold fields_given_up.
    destruct (first_candidate digest 0) as [[f i]|]; [rewrite Nat.sub_0_r|]; reflexivity.
  - pose proof (first_candidate_find digest 0) as H.
    destruct (first_candidate digest 0) as [[f i]|]; cbn [option_map fst snd].
    + destruct H as [_ H]. rewrite Nat.sub_0_r in H. symmetry. exact H.
    + symmetry. exact H.
Qed.

(** X3.  http_send_response_hdr starts a lookup exactly when the client
    response is there, has a Location field whose first value parses, a key
    can be made from it and some Digest value is accepted.  Then the one
    lookup is by the Location URL and the response waits; otherwise the
    response is resumed at once, with no lookup. *)
Theorem lookup_started_iff_headers_qualify (host : Host) (location : option (list string))
    (digest : list (list string)) :
  let o := http_send_response_hdr host (init_world location digest) in
  aborted o = false
  /\ finished o = negb (qualifies host location digest)
  /\ count is_cache_read (world_of o) = (if qualifies host location digest then 1 else 0)%nat
  /\ reenables (world_of o) = (if qualifies host location digest then 0 else 1)%nat
  /\ resp_location (world_of o) = location
  /\ option_map awaiting (cont (world_of o))
     = match location with
       | Some values =>
           match UrlParse host (TSMimeHdrFieldValueStringGet values 0) with
           | Some u => if qualifies host location digest
                       then Some (OpCacheRead (KeyOfUrl u)) else None
           | None => None
           end
       | None => None
       end.
Proof.
  cbv zeta. unfold init_world.
  remember (qualifies host location digest) as q eqn:Hq.
  unfold qualifies in Hq. rewrite (has_candidate_first digest 0) in Hq.
  api_send. branches ltac:(cbn [world_of finished aborted negb cont]).
  all: try (rewrite scan_fields_exact;
            cbn [resp_location resp_digest trace next_key cont];
            revert Hq; destruct (first_candidate digest 0) as [[f i]|]; intros Hq).
  all: repeat match goal with
         | H : ClientRespGet _ = _ |- _ => rewrite H in Hq; clear H
         | H : UrlParse _ _ = _ |- _ => rewrite H in *; clear H
         | H : CacheKeyDigestFromUrlSet _ _ = _ |- _ => rewrite H in Hq; clear H
         end.
  all: cbn [andb] in Hq; try discriminate Hq.
  all: observe; cbn [option_map awaiting]; repeat split.
Qed.

(** ** Whole sessions *)

Lemma run_invariant (host : Host) (P : Outcome unit -> Prop) (evs : list HostEvent) (w : World) :
  P (http_send_response_hdr host w) ->
  (forall e w', P (Ok tt w') -> P (deliver host e w')) ->
  P (run host evs w).
Proof.
  intros H0 Hstep. unfold run, bind.
  destruct (http_send_response_hdr host w) as [[] w'|w']; [|exact H0].
  apply deliver_all_invariant; assumption.
Qed.

Ltac tally_all :=
  unfold count; cbn [world_of trace cont cont_handler awaiting];
  cbn [filter List.length app is_reenable is_cache_read is_digest_read is_header_write
       is_cache_mutation is_cache_write is_vconn_write is_vconn_close orb
       is_malloc is_free is_cont_create is_cont_destroy is_buffer_create is_buffer_destroy
       is_any_key_create is_any_key_destroy];
  rewrite ?filter_releases by reflexivity;
  cbn [filter List.length app is_reenable is_cache_read is_digest_read is_header_write
       is_cache_mutation is_cache_write is_vconn_write is_vconn_close orb
       is_malloc is_free is_cont_create is_cont_destroy is_buffer_create is_buffer_destroy
       is_any_key_create is_any_key_destroy].

Ltac simp_world := cbn [world_of finished aborted negb cont cont_handler awaiting resp_location].

Lemma lookups_start (host : Host) (location : option (list string))
    (digest : list (list string)) :
  lookups_inv location (http_send_response_hdr host (init_world location digest)).
Proof.
  unfold lookups_inv, init_world. api_send. branches simp_world.
  all: try (rewrite scan_fields_exact;
            cbn [resp_location resp_digest trace next_key cont];
            destruct (first_candidate digest 0) as [[f i]|]).
  all: simp_world; tally_all; try left; repeat split; lia.
Qed.

Lemma lookups_step (host : Host) (location : option (list string)) (e : HostEvent) (w : World) :
  lookups_inv location (Ok tt w) -> lookups_inv location (deliver host e w).
Proof.
  destruct w as [loc dig tr nk [c|]]; [|intros H; exact H].
  destruct c as [hd [u [kid kd] f i rb] op], e as [event conn blocks].
  unfold lookups_inv, count. simp_world. cbn [trace]. intros (Hw & Hl & Hc).
  destruct hd; destruct Hc as [Hc Hd]; api; branches simp_world; tally_all;
    first [ left; repeat split; (assumption || lia)
          | right; repeat split; lia
          | repeat split; (assumption || lia) ].
Qed.

(** X4.  A session makes at most three cache lookups, at most one of them by
    digest, and writes the Location field at most once: only at its end,
    and only after all three lookups. *)
Theorem rewrite_only_after_three_lookups (host : Host) (location : option (list string))
    (digest : list (list string)) (evs : list HostEvent) :
  let o := run host evs (init_world location digest) in
  (count is_cache_read (world_of o) <= 3)%nat
  /\ (count is_digest_read (world_of o) <= 1)%nat
  /\ ((count is_header_write (world_of o) = 0%nat /\ resp_location (world_of o) = location)
      \/ (count is_header_write (world_of o) = 2%nat
          /\ count is_cache_read (world_of o) = 3%nat
          /\ count is_digest_read (world_of o) = 1%nat
          /\ finished o = true)).
Proof.
  cbv zeta.
  assert (H : lookups_inv location (run host evs (init_world location digest))).
  { apply run_invariant; [apply lookups_start|intros e w'; apply lookups_step]. }
  destruct (run host evs (init_world location digest)) as [[] w|w];
    unfold lookups_inv in H; cbn [world_of finished] in *.
  - destruct (cont w) as [c|].
    + destruct H as (Hw & Hl & Hc).
      destruct (cont_handler c); destruct Hc; (split; [lia|split; [lia|]]);
        left; split; assumption.
    + destruct H as [(Hw & Hl & Hc & Hd)|(Hw & Hc & Hd)]; (split; [lia|split; [lia|]]).
      * left; split; assumption.
      * right. repeat split; assumption.
  - destruct H as (Hw & Hl & Hc & Hd). split; [lia|split; [lia|]]. left; split; assumption.
Qed.

Lemma mutation_step (host : Host) (e : HostEvent) (w : World) :
  count is_cache_mutation w = 0%nat -> count is_cache_mutation (world_of (deliver host e w)) = 0%nat.
Proof.
  destruct w as [loc dig tr nk [c|]]; [|intros H; exact H].
  destruct c as [hd [u [kid kd] f i rb] op], e as [event conn blocks].
  unfold count. cbn [trace]. intros H.
  destruct hd; api; branches simp_world; tally_all; exact H.
Qed.

(** X5.  The send path only reads the cache: in no session does it open a
    cache write, write to a cache vconnection or close one. *)
Theorem send_path_never_writes_cache (host : Host) (location : option (list string))
    (digest : list (list string)) (evs : list HostEvent) :
  count is_cache_mutation (world_of (run host evs (init_world location digest))) = 0%nat.
Proof.
  apply (run_invariant host (fun o => count is_cache_mutation (world_of o) = 0%nat)).
  - unfold init_world. api_send. branches simp_world.
    all: try (rewrite scan_fields_exact;
              cbn [resp_location resp_digest trace next_key cont];
              destruct (first_candidate digest 0) as [[f i]|]).
    all: simp_world; tally_all; reflexivity.
  - intros e w'. cbn [world_of]. apply mutation_step.
Qed.

(** X6.  With the digest-phase lookup outstanding, a miss ends the session
    with the response resumed and the header untouched; so does a hit whose
    stored value does not parse as a URL in its first block, or parses to a
    URL no cache key can be made from.  None of them makes a further
    lookup. *)
Theorem digest_miss_resumes_unmodified (host : Host) (w : World) (data : SendData)
    (op : Op) (connp : TSVConn) (b0 b1 : list string) (first : string) (more : list string) :
  cont w = Some (mkCont Digest_handler data op) ->
  match UrlParse host first with
  | Some u => CacheKeyDigestFromUrlSet host u = false
  | None => True
  end ->
  let miss := deliver host (mkEvent TS_EVENT_CACHE_OPEN_READ_FAILED connp b0) w in
  let unusable :=
    deliver_all host [mkEvent TS_EVENT_CACHE_OPEN_READ connp b1;
                      mkEvent TS_EVENT_VCONN_READ_READY connp (first :: more)] w in
  (finished miss = true
   /\ resp_location (world_of miss) = resp_location w
   /\ count is_header_write (world_of miss) = count is_header_write w
   /\ count is_cache_read (world_of miss) = count is_cache_read w
   /\ reenables (world_of miss) = S (reenables w))
  /\ (finished unusable = true
      /\ resp_location (world_of unusable) = resp_location w
      /\ count is_header_write (world_of unusable) = count is_header_write w
      /\ count is_cache_read (world_of unusable) = count is_cache_read w
      /\ reenables (world_of unusable) = S (reenables w)).
Proof.
  destruct w as [loc dig tr nk k], data as [u0 [kid kd] f i rb].
  cbn [cont resp_location]. intros -> Hbad. cbv zeta.
  cbn [deliver_all]. unfold bind. api.
  destruct (UrlParse host first) as [u|]; [rewrite Hbad; cbn [negb]|];
    observe; repeat split.
Qed.

(** X7.  Dedup rewrite, from the headers to the resumed response.  With a
    proxy that answers every lookup from its cache: when the Location URL is
    not cached, the first accepted Digest value decodes, the cache has a
    value under the decoded digest whose first block parses as a URL, and
    that URL is cached, the session makes its three lookups by these three
    keys, in this order, replaces the values of the Location field by the
    text of the recovered URL, and resumes the response once. *)
Theorem dedup_rewrite_end_to_end (host : Host) (values : list string)
    (digest : list (list string)) (u0 u : Url) (value stored : string) (more : list string)
    (d : list byte) (hit : string * list string) :
  ClientRespGet host = true ->
  UrlParse host (TSMimeHdrFieldValueStringGet values 0) = Some u0 ->
  CacheKeyDigestFromUrlSet host u0 = true ->
  find accepted (List.concat digest) = Some value ->
  cache host (KeyOfUrl u0) = None ->
  Base64Decode host (string_drop 8 value) = Some d ->
  CacheKeyDigestSet host (firstn 32 d) = true ->
  cache host (KeyOfDigest (firstn 32 d)) = Some (stored, more) ->
  UrlParse host stored = Some u ->
  CacheKeyDigestFromUrlSet host u = true ->
  cache host (KeyOfUrl u) = Some hit ->
  let o := serve host (init_world (Some values) digest) in
  finished o = true
  /\ resp_location (world_of o) = Some [UrlStringGet host u]
  /\ reenables (world_of o) = 1%nat
  /\ filter is_cache_read (trace (world_of o))
     = [ Call_TSCacheRead Rewrite_handler (KeyOfUrl u);
         Call_TSCacheRead Digest_handler (KeyOfDigest (firstn 32 d));
         Call_TSCacheRead Location_handler (KeyOfUrl u0) ].
Proof.
  intros Hresp Hparse0 Hkey0 Hfind Hmiss Hdec Hset Hdig Hparse Hkey Hhit. cbv zeta.
  destruct hit as [h1 h2].
  pose proof (first_candidate_find digest 0) as Hfc. rewrite Hfind in Hfc.
  destruct (first_candidate digest 0) as [[f i]|] eqn:Efc; [|discriminate].
  destruct Hfc as [_ Hfc]. rewrite Nat.sub_0_r in Hfc. injection Hfc as Hval.
  unfold serve, init_world, bind at 1. api_send.
  rewrite Hresp. cbn [negb]. rewrite Hparse0, Hkey0. cbn [negb].
  rewrite scan_fields_exact, Efc. cbn [resp_location resp_digest trace next_key cont].
  cbn [serve_steps]. unfold bind, serve_step, proxy_answer.
  cbn [cont awaiting]. rewrite Hmiss. api.
  unfold TSMimeHdrFieldValueStringGet. rewrite <- Hval, Hdec, Hset. cbn [negb].
  rewrite Hdig. cbn [vc_first vc_more]. rewrite Hparse, Hkey. cbn [negb].
  rewrite Hhit. api. observe. cbn [filter is_cache_read app].
  rewrite ?filter_releases by reflexivity. repeat split.
Qed.

Lemma dedup_rewrite_end_to_end_witness :
  let o := serve (example_proxy table_full) response_b in
  finished o = true
  /\ resp_location (world_of o) = Some [origin_a]
  /\ reenables (world_of o) = 1%nat
  /\ filter is_cache_read (trace (world_of o))
     = [ Call_TSCacheRead Rewrite_handler (KeyOfUrl origin_a);
         Call_TSCacheRead Digest_handler (KeyOfDigest digest_abc);
         Call_TSCacheRead Location_handler (KeyOfUrl mirror_b) ].
Proof.
  apply (dedup_rewrite_end_to_end (example_proxy table_full) [mirror_b] [[digest_value_abc]]
           mirror_b origin_a digest_value_abc origin_a [] digest_abc ("abc", []));
    vm_compute; reflexivity.
Defined.

Lemma digest_miss_resumes_unmodified_witness :
  let miss := deliver (example_proxy table_full)
                (mkEvent TS_EVENT_CACHE_OPEN_READ_FAILED (mkVConn 0 EmptyString []) [])
                world_digest_phase in
  finished miss = true
  /\ resp_location (world_of miss) = Some [mirror_b]
  /\ reenables (world_of miss) = 1%nat.
Proof.
  destruct (digest_miss_resumes_unmodified (example_proxy table_full) world_digest_phase
              data_digest_phase (OpCacheRead (KeyOfDigest digest_abc))
              (mkVConn 0 EmptyString []) [] [] "not a url" [] eq_refl I)
    as [(Hf & Hl & _ & _ & Hr) _].
  repeat split; assumption.
Defined.

Lemma owns_start (host : Host) (location : option (list string))
    (digest : list (list string)) :
  owns_inv (http_send_response_hdr host (init_world location digest)).
Proof.
  unfold owns_inv, init_world. api_send. branches simp_world.
  all: try (rewrite scan_fields_exact;
            cbn [resp_location resp_digest trace next_key cont];
            destruct (first_candidate digest 0) as [[f i]|]).
  all: simp_world; tally_all; repeat split; lia.
Qed.

Lemma owns_step (host : Host) (w : World) :
  owns_inv (Ok tt w) -> owns_inv (serve_step host w).
Proof.
  destruct w as [loc dig tr nk [c|]].
  - destruct c as [hd [u [kid kd] f i rb] op].
    unfold owns_inv, serve_step, proxy_answer, count.
    cbn [cont trace cont_handler awaiting].
    intros (Hm & Hf & Hc & Hkc & Hkd & Hb).
    destruct hd, op; try contradiction.
    all: try (destruct (cache host _) as [[first more]|]); api;
      cbn [vc_first vc_more]; branches simp_world; tally_all; repeat split; lia.
  - intros H. exact H.
Qed.

(** X8.  A session served by a proxy that answers every lookup gives back
    all it has acquired, once each: the SendData is freed, every
    continuation created is destroyed, so is the read buffer when one was
    created, and so is the cache key. *)
Theorem served_session_leaks_nothing (host : Host) (location : option (list string))
    (digest : list (list string)) :
  let w := world_of (serve host (init_world location digest)) in
  count is_malloc w = 1%nat
  /\ count is_free w = 1%nat
  /\ count is_cont_destroy w = count is_cont_create w
  /\ count is_buffer_destroy w = count is_buffer_create w
  /\ count is_any_key_destroy w = count is_any_key_create w.
Proof.
  cbv zeta.
  pose proof (serve_finished host (init_world location digest) eq_refl) as Hfin.
  assert (H : owns_inv (serve host (init_world location digest))).
  { unfold serve, bind.
    pose proof (owns_start host location digest) as H0.
    destruct (http_send_response_hdr host (init_world location digest)) as [[] w'|w'];
      [|destruct H0].
    revert w' H0. generalize 4%nat. intros n.
    induction n as [|n IH]; intros w' H0; [exact H0|].
    cbn [serve_steps]. unfold bind.
    pose proof (owns_step host w' H0) as H1.
    destruct (serve_step host w') as [[] w''|w'']; [apply IH, H1|destruct H1]. }
  destruct (serve host (init_world location digest)) as [[] w|w]; [|destruct H].
  cbn [finished world_of owns_inv] in *.
  destruct (cont w); [discriminate|]. tauto.
Qed.

(** ** Header handles *)

Lemma count_released_fields (g k : nat) (tr : list Call) :
  List.length (filter (is_release_of (digest_loc g))
                 (map Call_TSHandleMLocRelease (rev (map digest_loc (seq 0 k))) ++ tr))
  = ((if (g <? k)%nat then 1 else 0) + List.length (filter (is_release_of (digest_loc g)) tr))%nat.
Proof.
  induction k as [|k IH].
  - reflexivity.
  - rewrite seq_S, map_app, rev_app_distr. cbn [map rev app Nat.add filter is_release_of TSMLoc_eqb].
    destruct (Nat.eqb_spec k g) as [->|Hne]; cbn [List.length]; rewrite IH.
    + rewrite Nat.ltb_irrefl. replace (g <? S g)%nat with true by (symmetry; apply Nat.ltb_lt; lia).
      reflexivity.
    + destruct (Nat.ltb_spec g k), (Nat.ltb_spec g (S k)); lia.
Qed.

Lemma count_released_other (l : TSMLoc) (locs : list nat) (tr : list Call) :
  (forall g, l <> digest_loc g) ->
  List.length (filter (is_release_of l) (map Call_TSHandleMLocRelease (map digest_loc locs) ++ tr))
  = List.length (filter (is_release_of l) tr).
Proof.
  intros Hl. induction locs as [|g locs IH]; [reflexivity|].
  cbn [map app filter is_release_of].
  destruct l; try (cbn [TSMLoc_eqb]; exact IH). exfalso. eapply Hl. reflexivity.
Qed.

Lemma rev_map_digest_loc (l : list nat) : rev (map digest_loc l) = map digest_loc (rev l).
Proof. symmetry. apply map_rev. Qed.

Ltac count_releases l :=
  unfold count; cbn [world_of trace];
  destruct l;
  cbn [filter is_release_of TSMLoc_eqb List.length app];
  rewrite ?count_released_fields;
  rewrite ?rev_map_digest_loc, ?count_released_other by (intros ?; discriminate);
  cbn [filter is_release_of TSMLoc_eqb List.length app Nat.add].

Lemma reaches_scan_inv (host : Host) (location : option (list string)) :
  reaches_scan host location = true ->
  ClientRespGet host = true
  /\ exists values u,
       location = Some values
       /\ UrlParse host (TSMimeHdrFieldValueStringGet values 0) = Some u
       /\ CacheKeyDigestFromUrlSet host u = true.
Proof.
  unfold reaches_scan. intros H. apply andb_prop in H as [Hr H]. split; [exact Hr|].
  destruct location as [values|]; [|discriminate].
  destruct (UrlParse host _) as [u|] eqn:Hu; [|discriminate].
  exists values, u. repeat split; assumption.
Qed.

Lemma handles_start (host : Host) (location : option (list string))
    (digest : list (list string)) :
  handles_inv host location digest (http_send_response_hdr host (init_world location digest)).
Proof.
  unfold handles_inv, init_world.
  set (ho := handles_obtained host location digest).
  set (rs := reaches_scan host location).
  api_send. branches simp_world.
  all: try (rewrite scan_fields_exact;
            cbn [resp_location resp_digest trace next_key cont];
            destruct (first_candidate digest 0) as [[f i]|] eqn:Efc).
  all: simp_world; cbn [cont_data digest_field].
  all: subst ho rs; unfold handles_obtained, reaches_scan.
  all: repeat match goal with
         | H : ClientRespGet _ = _ |- _ => rewrite H; clear H
         | H : UrlParse _ _ = _ |- _ => rewrite H; clear H
         | H : CacheKeyDigestFromUrlSet _ _ = _ |- _ => rewrite H; clear H
         end.
  all: cbn [andb]; rewrite ?Efc.
  all: try (split; [reflexivity|split; [eexists; reflexivity|]]).
  all: intros hl; count_releases hl; try reflexivity.
  all: rewrite ?Nat.sub_0_r; try (destruct (_ <? _)%nat; reflexivity).
Qed.

Lemma handles_step (host : Host) (location : option (list string))
    (digest : list (list string)) (e : HostEvent) (w : World) :
  handles_inv host location digest (Ok tt w) ->
  handles_inv host location digest (deliver host e w).
Proof.
  destruct w as [loc dig tr nk [c|]]; [|intros H; exact H].
  destruct c as [hd [u [kid kd] f i rb] op], e as [event conn blocks].
  unfold handles_inv, count.
  cbn [world_of cont trace cont_handler cont_data digest_field].
  intros (Hreach & [i0 Hfc] & Hcount).
  assert (Hho : forall g, handles_obtained host location digest (digest_loc g)
                          = if (g <? S f)%nat then 1%nat else 0%nat).
  { intros g. unfold handles_obtained. rewrite Hreach, Hfc. reflexivity. }
  assert (Hh1 : handles_obtained host location digest hdr_loc = 1%nat
                /\ handles_obtained host location digest location_loc = 1%nat
                /\ handles_obtained host location digest url_loc = 1%nat).
  { destruct (reaches_scan_inv host location Hreach) as (Hr & values & u1 & -> & _).
    unfold handles_obtained. rewrite Hr. repeat split. }
  destruct Hh1 as (Hhdr & Hloc & Hurl).
  set (ho := handles_obtained host location digest) in *.
  set (rs := reaches_scan host location) in *.
  destruct hd; api; branches simp_world; cbn [cont_data digest_field].
  all: try (split; [exact Hreach|split; [eexists; exact Hfc|]]).
  all: intros hl; pose proof (Hcount hl) as Hl; revert Hl; count_releases hl;
    intros Hl; rewrite ?Hl, ?Hhdr, ?Hloc, ?Hurl, ?Hho; try reflexivity; try lia.
  all: revert Hl;
    repeat match goal with
      | |- context [(?a =? ?b)%nat] => destruct (Nat.eqb_spec a b)
      | |- context [(?a <? ?b)%nat] => destruct (Nat.ltb_spec a b)
      | |- context [(?a <=? ?b)%nat] => destruct (Nat.leb_spec a b)
      end;
    cbn [List.length]; intros Hl; rewrite ?Hl; lia.
Qed.

Lemma handles_serve (host : Host) (location : option (list string))
    (digest : list (list string)) :
  handles_inv host location digest (serve host (init_world location digest)).
Proof.
  unfold serve, bind.
  pose proof (handles_start host location digest) as H0.
  destruct (http_send_response_hdr host (init_world location digest)) as [[] w'|w'];
    [|exact H0].
  revert w' H0. generalize 4%nat. intros n.
  induction n as [|n IH]; intros w' H0; [exact H0|].
  cbn [serve_steps]. unfold bind.
  assert (H1 : handles_inv host location digest (serve_step host w')).
  { unfold serve_step. destruct (proxy_answer host w'); [apply handles_step|]; exact H0. }
  destruct (serve_step host w') as [[] w''|w'']; [apply IH, H1|exact H1].
Qed.

(** X9.  In no session is a header handle released twice; and when a served
    session is over, every handle it obtained has been released exactly
    once: the header, the Location field, the URL object, and each Digest
    field the scan looked at.  The Digest fields after the accepted one are
    never looked at. *)
Theorem handles_released_once (host : Host) (location : option (list string))
    (digest : list (list string)) (evs : list HostEvent) (l : TSMLoc) :
  (count (is_release_of l) (world_of (run host evs (init_world location digest))) <= 1)%nat
  /\ count (is_release_of l) (world_of (serve host (init_world location digest)))
     = handles_obtained host location digest l.
Proof.
  split.
  - assert (H : handles_inv host location digest (run host evs (init_world location digest))).
    { apply run_invariant; [apply handles_start|intros e w'; apply handles_step]. }
    destruct (run host evs (init_world location digest)) as [[] w|w];
      unfold handles_inv in H; cbn [world_of] in *; [|apply H].
    destruct (cont w) as [c|].
    + destruct H as (_ & _ & H). rewrite H.
      destruct l; try lia. destruct (cont_handler c);
        match goal with |- context [if ?b then _ else _] => destruct b end; lia.
    + rewrite H. unfold handles_obtained.
      destruct l; repeat match goal with |- context [if ?b then _ else _] => destruct b end; lia.
  - pose proof (serve_finished host (init_world location digest) eq_refl) as Hfin.
    pose proof (handles_serve host location digest) as H.
    destruct (serve host (init_world location digest)) as [[] w|w]; [|discriminate].
    unfold handles_inv in H. cbn [world_of finished] in *.
    destruct (cont w); [discriminate|]. apply H.
Qed.

(** ** A whole body through the transform *)

Lemma consume_all (blocks : list (list byte)) :
  TSIOBufferReaderConsume (List.length (List.concat blocks)) blocks = [].
Proof.
  induction blocks as [|b blocks IH]; [reflexivity|].
  cbn [List.concat TSIOBufferReaderConsume]. rewrite length_app.
  destruct (Nat.ltb_spec (List.length b + List.length (List.concat blocks)) (List.length b));
    [lia|].
  replace (List.length b + List.length (List.concat blocks) - List.length b)%nat
    with (List.length (List.concat blocks)) by lia.
  exact IH.
Qed.

Lemma body_of_cons (d : list (list byte)) (ds : list (list (list byte))) :
  body_of (d :: ds) = List.concat d ++ body_of ds.
Proof. reflexivity. Qed.

Lemma body_of_app (ds ds' : list (list (list byte))) :
  body_of (ds ++ ds') = body_of ds ++ body_of ds'.
Proof. unfold body_of. rewrite map_app, concat_app. reflexivity. Qed.

Lemma sha256_of_digested (c : SHA256.SHA256_CTX) (s : list byte) :
  digested c s -> SHA256.SHA256_Final c = sha256 s.
Proof.
  intros Hc. unfold sha256. f_equal. eapply digested_unique; [exact Hc|].
  apply (digested_Update _ [] _ digested_Init).
Qed.

Ltac vio_fields :=
  cbn [TransformData.bufp TransformData.c TransformData.key TransformData.viop
       vio_buffer vio_blocks vio_ndone vio_nbytes negb fst snd] in *.

(** One delivery that does not end the body: what it brought is copied and
    digested, the input is consumed, and upstream is asked for more if it
    brought anything. *)
Lemma deliver_body_more (host : Host) (data : TransformData.t) (held : list (list byte))
    (d : list (list byte)) (ndone nbytes : Z) (w : World) :
  let avail := Z.of_nat (List.length (List.concat d)) in
  List.concat held = [] ->
  (0 <= ndone)%Z -> (ndone + avail < nbytes)%Z -> (nbytes < 2 ^ 31)%Z ->
  exists data' held' w',
    deliver_body host (data, mkVIO true held ndone nbytes) d w
    = Ok (data', mkVIO true held' (ndone + avail) nbytes) w'
    /\ List.concat held' = []
    /\ out_of data' = out_of data ++ List.concat d
    /\ (forall s, digested (ctx_of data) s -> digested (ctx_of data') (s ++ List.concat d))
    /\ filter is_cache_write (trace w') = filter is_cache_write (trace w)
    /\ count (is_upstream_call TS_EVENT_VCONN_WRITE_READY) w'
       = ((if brings_bytes d then 1 else 0)
          + count (is_upstream_call TS_EVENT_VCONN_WRITE_READY) w)%nat
    /\ count (is_upstream_call TS_EVENT_VCONN_WRITE_COMPLETE) w'
       = count (is_upstream_call TS_EVENT_VCONN_WRITE_COMPLETE) w
    /\ count is_any_key_create w' = count is_any_key_create w
    /\ next_key w' = next_key w.
Proof.
  cbv zeta. intros Hheld Hnd Hlt Hmax.
  assert (Hcat : List.concat (held ++ d) = List.concat d).
  { rewrite concat_app, Hheld. reflexivity. }
  destruct data as [b v c k], w as [loc dig tr nk k0].
  unfold deliver_body, vconn_write_ready, out_of, ctx_of, TSIOBufferReaderAvail, brings_bytes.
  vio_fields. rewrite Hcat.
  rewrite (to_int_small (Z.of_nat _)) by lia.
  destruct (List.concat d) as [|x xs] eqn:Hd.
  - cbn [List.length Z.of_nat Z.gtb Z.compare Nat.eqb negb] in *. rewrite Z.add_0_r in *.
    destruct b as [b|]; api_t; vio_fields;
      rewrite (to_int_small (nbytes - _)) by lia;
      (destruct (Z.gtb_spec (nbytes - ndone) 0); [|lia]);
      eexists _, (held ++ d), _; (split; [reflexivity|]); cbn [trace next_key];
      vio_fields;
      cbn [filter List.length is_cache_write is_upstream_call is_any_key_create];
      rewrite ?app_nil_r; repeat split; try assumption;
      intros s Hs; rewrite app_nil_r; try exact Hs.
  - rewrite <- Hd in *.
    assert (Hpos : (0 < Z.of_nat (List.length (List.concat d)))%Z).
    { rewrite Hd. cbn [List.length]. lia. }
    destruct (Z.gtb_spec (Z.of_nat (List.length (List.concat d))) 0) as [_|Hle]; [|lia].
    destruct (Nat.eqb_spec (List.length (List.concat d)) 0) as [E0|_]; [lia|].
    assert (Hcons : TSIOBufferReaderConsume (List.length (List.concat d)) (held ++ d) = []).
    { rewrite <- Hcat. apply consume_all. }
    rewrite Nat2Z.id, Hcons, firstn_all.
    destruct b as [b|]; api_t; vio_fields;
      rewrite (to_int_small ndone) by lia;
      rewrite (to_int_small (ndone + _)) by lia;
      rewrite (to_int_small (nbytes - _)) by lia;
      (destruct (Z.gtb_spec (nbytes - (ndone + Z.of_nat (List.length (List.concat d)))) 0);
       [|lia]);
      eexists _, [], _; (split; [reflexivity|]); cbn [trace next_key];
      vio_fields;
      cbn [filter List.length is_cache_write is_upstream_call is_any_key_create negb];
      repeat split;
      intros s Hs; rewrite <- Hcat; apply digested_feed_blocks, Hs.
Qed.

(** The delivery that ends the body: the rest is copied and digested, the
    digest is finalized and the cache write is opened under it. *)
Lemma deliver_body_last (host : Host) (data : TransformData.t) (held : list (list byte))
    (d : list (list byte)) (ndone nbytes : Z) (s : list byte) (w : World) :
  let avail := Z.of_nat (List.length (List.concat d)) in
  List.concat held = [] ->
  (0 <= ndone)%Z -> (ndone + avail = nbytes)%Z -> (nbytes < 2 ^ 31)%Z ->
  digested (ctx_of data) s ->
  CacheKeyDigestSet host (sha256 (s ++ List.concat d)) = true ->
  exists data' held' w',
    deliver_body host (data, mkVIO true held ndone nbytes) d w
    = Ok (data', mkVIO true held' nbytes nbytes) w'
    /\ List.concat held' = []
    /\ TransformData.bufp data' = Some (out_of data ++ List.concat d)
    /\ TransformData.key data'
       = Some (mkKey (next_key w) (KeyOfDigest (sha256 (s ++ List.concat d))))
    /\ filter is_cache_write (trace w')
       = Call_TSCacheWrite (KeyOfDigest (sha256 (s ++ List.concat d)))
           :: filter is_cache_write (trace w)
    /\ count (is_upstream_call TS_EVENT_VCONN_WRITE_READY) w'
       = count (is_upstream_call TS_EVENT_VCONN_WRITE_READY) w
    /\ count (is_upstream_call TS_EVENT_VCONN_WRITE_COMPLETE) w'
       = S (count (is_upstream_call TS_EVENT_VCONN_WRITE_COMPLETE) w)
    /\ count is_any_key_create w' = S (count is_any_key_create w).
Proof.
  cbv zeta. intros Hheld Hnd Heq Hmax Hs Hset.
  assert (Hcat : List.concat (held ++ d) = List.concat d).
  { rewrite concat_app, Hheld. reflexivity. }
  destruct data as [b v c k], w as [loc dig tr nk k0].
  unfold deliver_body, vconn_write_ready, out_of, ctx_of, TSIOBufferReaderAvail in *.
  vio_fields. rewrite Hcat.
  rewrite (to_int_small (Z.of_nat _)) by lia.
  destruct (List.concat d) as [|x xs] eqn:Hd.
  - cbn [List.length Z.of_nat Z.gtb Z.compare] in *. rewrite Z.add_0_r in *. subst nbytes.
    rewrite app_nil_r in *.
    rewrite <- (sha256_of_digested _ _ Hs) in *.
    destruct b as [b|]; api_t; vio_fields;
      rewrite (to_int_small (ndone - _)) by lia;
      (destruct (Z.gtb_spec (ndone - ndone) 0); [lia|]);
      rewrite Hset; cbn [negb]; rewrite (to_int_small ndone) by lia;
      eexists _, (held ++ d), _; (split; [reflexivity|]); cbn [trace next_key];
      vio_fields;
      cbn [filter List.length is_cache_write is_upstream_call is_any_key_create];
      rewrite ?app_nil_r; repeat split; try assumption;
      rewrite <- (sha256_of_digested _ _ Hs); reflexivity.
  - rewrite <- Hd in *.
    assert (Hpos : (0 < Z.of_nat (List.length (List.concat d)))%Z).
    { rewrite Hd. cbn [List.length]. lia. }
    destruct (Z.gtb_spec (Z.of_nat (List.length (List.concat d))) 0) as [_|Hle]; [|lia].
    assert (Hcons : TSIOBufferReaderConsume (List.length (List.concat d)) (held ++ d) = []).
    { rewrite <- Hcat. apply consume_all. }
    rewrite Nat2Z.id, Hcons, firstn_all.
    assert (Hc' : forall c0, digested c0 s ->
              SHA256.SHA256_Final (feed_blocks c0 (held ++ d)) = sha256 (s ++ List.concat d)).
    { intros c0 H0. apply sha256_of_digested. rewrite <- Hcat.
      apply digested_feed_blocks, H0. }
    destruct b as [b|]; api_t; vio_fields;
      rewrite (to_int_small ndone) by lia;
      rewrite (to_int_small (ndone + _)) by lia;
      rewrite (to_int_small (nbytes - _)) by lia;
      (destruct (Z.gtb_spec (nbytes - (ndone + Z.of_nat (List.length (List.concat d)))) 0);
       [lia|]);
      rewrite (Hc' _ Hs), Hset; cbn [negb];
      rewrite Heq; rewrite (to_int_small nbytes) by lia;
      eexists _, [], _; (split; [reflexivity|]); cbn [trace next_key];
      vio_fields;
      cbn [filter List.length is_cache_write is_upstream_call is_any_key_create];
      repeat split.
Qed.

Lemma deliver_bodies_more (host : Host) (pre : list (list (list byte))) :
  forall (data : TransformData.t) (held : list (list byte)) (ndone nbytes : Z) (w : World),
    List.concat held = [] ->
    (0 <= ndone)%Z ->
    (ndone + Z.of_nat (List.length (body_of pre)) < nbytes)%Z ->
    (nbytes < 2 ^ 31)%Z ->
    exists data' held' w',
      deliver_bodies host (data, mkVIO true held ndone nbytes) pre w
      = Ok (data', mkVIO true held' (ndone + Z.of_nat (List.length (body_of pre))) nbytes) w'
      /\ List.concat held' = []
      /\ out_of data' = out_of data ++ body_of pre
      /\ (forall s, digested (ctx_of data) s -> digested (ctx_of data') (s ++ body_of pre))
      /\ filter is_cache_write (trace w') = filter is_cache_write (trace w)
      /\ count (is_upstream_call TS_EVENT_VCONN_WRITE_READY) w'
         = (List.length (filter brings_bytes pre)
            + count (is_upstream_call TS_EVENT_VCONN_WRITE_READY) w)%nat
      /\ count (is_upstream_call TS_EVENT_VCONN_WRITE_COMPLETE) w'
         = count (is_upstream_call TS_EVENT_VCONN_WRITE_COMPLETE) w
      /\ count is_any_key_create w' = count is_any_key_create w
      /\ next_key w' = next_key w.
Proof.
  induction pre as [|d pre IH]; intros data held ndone nbytes w Hheld Hnd Hlt Hmax.
  - exists data, held, w. cbn [deliver_bodies filter List.length body_of map List.concat].
    rewrite Z.add_0_r, app_nil_r. repeat split; try assumption.
    intros s Hs. rewrite app_nil_r. exact Hs.
  - rewrite body_of_cons, length_app, Nat2Z.inj_add in Hlt.
    destruct (deliver_body_more host data held d ndone nbytes w Hheld Hnd ltac:(lia) Hmax)
      as (data1 & held1 & w1 & E1 & Hheld1 & Hout1 & Hctx1 & Hcw1 & Hwr1 & Hwc1 & Hkc1 & Hnk1).
    cbn [deliver_bodies]. unfold bind. rewrite E1.
    destruct (IH data1 held1 (ndone + Z.of_nat (List.length (List.concat d)))%Z nbytes w1
                 Hheld1 ltac:(lia) ltac:(lia) Hmax)
      as (data' & held' & w' & E & Hheld' & Hout & Hctx & Hcw & Hwr & Hwc & Hkc & Hnk).
    exists data', held', w'. rewrite E.
    rewrite body_of_cons, length_app, Nat2Z.inj_add, Z.add_assoc.
    split; [reflexivity|].
    rewrite Hout, Hout1, <- app_assoc.
    repeat split; try congruence.
    + intros s Hs. rewrite app_assoc. apply Hctx, Hctx1, Hs.
    + transitivity (List.length (filter brings_bytes pre)
                    + count (is_upstream_call TS_EVENT_VCONN_WRITE_READY) w1)%nat;
        [exact Hwr|]. rewrite Hwr1. cbn [filter].
      destruct (brings_bytes d); cbn [List.length]; lia.
Qed.

Lemma deliver_bodies_app (host : Host) (pre : list (list (list byte))) (last : list (list byte)) :
  forall st w,
    deliver_bodies host st (pre ++ [last]) w
    = (st' <- deliver_bodies host st pre ;; deliver_body host st' last) w.
Proof.
  induction pre as [|d pre IH]; intros st w; cbn [app deliver_bodies].
  - unfold bind, ret. destruct (deliver_body host st last w) as [[? ?] ?|]; reflexivity.
  - unfold bind. destruct (deliver_body host st d w) as [st1 w1|w1]; [|reflexivity].
    rewrite IH. reflexivity.
Qed.

Lemma deliver_bodies_complete (host : Host) (pre : list (list (list byte)))
    (last : list (list byte)) (w : World) :
  let deliveries := pre ++ [last] in
  let body := body_of deliveries in
  let total := Z.of_nat (List.length body) in
  pre = [] \/ brings_bytes last = true ->
  (total < 2 ^ 31)%Z ->
  CacheKeyDigestSet host (sha256 body) = true ->
  exists data vio w',
    deliver_bodies host (fresh_transform, fresh_vio total) deliveries w = Ok (data, vio) w'
    /\ TransformData.bufp data = Some body
    /\ TransformData.key data = Some (mkKey (next_key w) (KeyOfDigest (sha256 body)))
    /\ TSIOBufferReaderAvail (vio_blocks vio) = 0%Z /\ vio_ndone vio = total
    /\ filter is_cache_write (trace w')
       = Call_TSCacheWrite (KeyOfDigest (sha256 body)) :: filter is_cache_write (trace w)
    /\ count (is_upstream_call TS_EVENT_VCONN_WRITE_READY) w'
       = (List.length (filter brings_bytes pre)
          + count (is_upstream_call TS_EVENT_VCONN_WRITE_READY) w)%nat
    /\ count (is_upstream_call TS_EVENT_VCONN_WRITE_COMPLETE) w'
       = S (count (is_upstream_call TS_EVENT_VCONN_WRITE_COMPLETE) w)
    /\ count is_any_key_create w' = S (count is_any_key_create w).
Proof.
  cbv zeta. intros Hlast Hmax Hset.
  assert (Hbody : body_of (pre ++ [last]) = body_of pre ++ List.concat last).
  { rewrite body_of_app. unfold body_of at 2. cbn [map List.concat]. rewrite app_nil_r.
    reflexivity. }
  rewrite Hbody in *. rewrite length_app, Nat2Z.inj_add in *.
  rewrite deliver_bodies_app. unfold bind, fresh_vio.
  assert (Hpre : exists data1 held1 w1,
            deliver_bodies host
              (fresh_transform,
               mkVIO true [] 0 (Z.of_nat (List.length (body_of pre))
                                + Z.of_nat (List.length (List.concat last)))) pre w
            = Ok (data1, mkVIO true held1 (0 + Z.of_nat (List.length (body_of pre)))
                          (Z.of_nat (List.length (body_of pre))
                           + Z.of_nat (List.length (List.concat last)))) w1
            /\ List.concat held1 = []
            /\ out_of data1 = body_of pre
            /\ digested (ctx_of data1) (body_of pre)
            /\ filter is_cache_write (trace w1) = filter is_cache_write (trace w)
            /\ count (is_upstream_call TS_EVENT_VCONN_WRITE_READY) w1
               = (List.length (filter brings_bytes pre)
                  + count (is_upstream_call TS_EVENT_VCONN_WRITE_READY) w)%nat
            /\ count (is_upstream_call TS_EVENT_VCONN_WRITE_COMPLETE) w1
               = count (is_upstream_call TS_EVENT_VCONN_WRITE_COMPLETE) w
            /\ count is_any_key_create w1 = count is_any_key_create w
            /\ next_key w1 = next_key w).
  { destruct Hlast as [->|Hl].
    - exists fresh_transform, [], w. cbn [deliver_bodies body_of map List.concat List.length
                                          filter Z.of_nat].
      repeat split. exact digested_Init.
    - assert (0 < Z.of_nat (List.length (List.concat last)))%Z.
      { unfold brings_bytes in Hl.
        destruct (Nat.eqb_spec (List.length (List.concat last)) 0); [discriminate|lia]. }
      destruct (deliver_bodies_more host pre fresh_transform [] 0
                  (Z.of_nat (List.length (body_of pre))
                   + Z.of_nat (List.length (List.concat last)))
                  w eq_refl ltac:(lia) ltac:(lia) Hmax)
        as (data1 & held1 & w1 & E1 & Hh & Hout & Hctx & Hcw & Hwr & Hwc & Hkc & Hnk).
      exists data1, held1, w1. repeat split; try assumption.
      apply (Hctx [] digested_Init). }
  destruct Hpre as (data1 & held1 & w1 & E1 & Hh & Hout & Hctx & Hcw & Hwr & Hwc & Hkc & Hnk).
  rewrite E1.
  destruct (deliver_body_last host data1 held1 last
              (0 + Z.of_nat (List.length (body_of pre)))
              (Z.of_nat (List.length (body_of pre)) + Z.of_nat (List.length (List.concat last)))
              (body_of pre) w1 Hh ltac:(lia) ltac:(lia) Hmax Hctx Hset)
    as (data2 & held2 & w2 & E2 & Hh2 & Hb2 & Hk2 & Hcw2 & Hwr2 & Hwc2 & Hkc2).
  rewrite E2. eexists _, _, w2. split; [reflexivity|].
  cbn [vio_blocks vio_ndone]. unfold TSIOBufferReaderAvail.
  rewrite Hb2, Hk2, Hcw2, Hh2, Hout, Hnk, Hcw, Hwr2, Hwr, Hwc2, Hwc, Hkc2, Hkc.
  repeat split.
Qed.

(** X10.  A body that arrives in any number of deliveries is copied
    downstream byte for byte, and with its last byte one cache write is
    opened, under the SHA-256 digest of the whole body and a key created
    for it then; upstream is told
    write-ready after every earlier delivery that brought bytes and
    write-complete once, after the last.  (The handler counts in int: the
    body is shorter than 2^31 bytes.  The last delivery is the one that
    completes the body: it brings bytes unless it is the only one, which
    covers the empty body.) *)
Theorem body_relayed_and_digest_recorded (host : Host) (pre : list (list (list byte)))
    (last : list (list byte)) (w : World) :
  let deliveries := pre ++ [last] in
  let body := body_of deliveries in
  let total := Z.of_nat (List.length body) in
  pre = [] \/ brings_bytes last = true ->
  (total < 2 ^ 31)%Z ->
  CacheKeyDigestSet host (sha256 body) = true ->
  exists data vio w',
    deliver_bodies host (fresh_transform, fresh_vio total) deliveries w = Ok (data, vio) w'
    /\ TransformData.bufp data = Some body
    /\ TransformData.key data = Some (mkKey (next_key w) (KeyOfDigest (sha256 body)))
    /\ TSIOBufferReaderAvail (vio_blocks vio) = 0%Z /\ vio_ndone vio = total
    /\ filter is_cache_write (trace w')
       = Call_TSCacheWrite (KeyOfDigest (sha256 body)) :: filter is_cache_write (trace w)
    /\ count (is_upstream_call TS_EVENT_VCONN_WRITE_READY) w'
       = (List.length (filter brings_bytes pre)
          + count (is_upstream_call TS_EVENT_VCONN_WRITE_READY) w)%nat
    /\ count (is_upstream_call TS_EVENT_VCONN_WRITE_COMPLETE) w'
       = S (count (is_upstream_call TS_EVENT_VCONN_WRITE_COMPLETE) w)
    /\ count is_any_key_create w' = S (count is_any_key_create w).
Proof.
  exact (deliver_bodies_complete host pre last w).
Qed.

Lemma body_relayed_and_digest_recorded_witness :
  exists data vio w',
    deliver_bodies (example_proxy table_digest_only) (fresh_transform, fresh_vio 3)
      [[]; [[x61; x62]]; [[x63]]] (init_world None []) = Ok (data, vio) w'
    /\ TransformData.bufp data = Some body_abc
    /\ filter is_cache_write (trace w') = [Call_TSCacheWrite (KeyOfDigest digest_abc)]
    /\ count (is_upstream_call TS_EVENT_VCONN_WRITE_READY) w' = 1%nat.
Proof.
  destruct (body_relayed_and_digest_recorded (example_proxy table_digest_only)
              [[]; [[x61; x62]]] [[x63]] (init_world None []))
    as (data & vio & w' & E & Hb & _ & _ & _ & Hcw & Hwr & _ & _).
  - right. reflexivity.
  - vm_compute. reflexivity.
  - vm_compute. reflexivity.
  - exists data, vio, w'. repeat split; assumption.
Defined.

(** ** What a recorded response owns *)

Ltac tally_owned :=
  unfold reenables, count; cbn [trace];
  cbn [filter List.length is_malloc is_free is_any_cont_create is_any_cont_destroy
       is_buffer_create is_buffer_destroy is_any_key_create is_any_key_destroy
       is_vconn_write is_vconn_close is_reenable].

Lemma vconn_write_ready_owned (host : Host) (data : TransformData.t) (vio : VIO) (w : World) :
  owned_step true data w (vconn_write_ready host data vio w).
Proof.
  destruct data as [b v c k], vio as [buf blocks nd nb], w as [loc dig tr nk k0].
  unfold owned_step, vconn_write_ready.
  cbn [TransformData.bufp TransformData.c TransformData.key TransformData.viop
       vio_buffer vio_blocks vio_ndone vio_nbytes].
  destruct b as [b|], buf; api_t;
    cbn [TransformData.bufp TransformData.c TransformData.key TransformData.viop
         vio_buffer vio_blocks vio_ndone vio_nbytes negb fst snd];
    branches ltac:(cbn [TransformData.bufp TransformData.c TransformData.key
                        TransformData.viop vio_buffer vio_blocks vio_ndone vio_nbytes
                        negb fst snd]);
    tally_owned; repeat split; intros _; discriminate.
Qed.

Lemma deliver_bodies_owned (host : Host) (ds : list (list (list byte))) :
  forall data vio w,
    owned_step (match ds with [] => false | _ => true end) data w
      (deliver_bodies host (data, vio) ds w).
Proof.
  induction ds as [|d ds IH]; intros data vio w.
  - cbn [deliver_bodies ret owned_step fst]. unfold ret.
    destruct (TransformData.bufp data); repeat split;
      try (intros [?|?]; [discriminate|assumption]).
  - cbn [deliver_bodies]. unfold bind, deliver_body.
    pose proof (vconn_write_ready_owned host (fst (data, vio))
                  (mkVIO (vio_buffer (snd (data, vio))) (vio_blocks (snd (data, vio)) ++ d)
                         (vio_ndone (snd (data, vio))) (vio_nbytes (snd (data, vio)))) w) as H1.
    destruct (vconn_write_ready _ _ _ w) as [[data1 vio1] w1|w1]; [|exact H1].
    specialize (IH data1 vio1 w1).
    destruct (deliver_bodies host (data1, vio1) ds w1) as [st w'|w']; [|exact IH].
    unfold owned_step in *. cbn [fst snd] in *.
    destruct H1 as (A1 & A2 & A3 & A4 & A5 & A6 & A7 & A8 & A0 & A9 & A10).
    destruct IH as (B1 & B2 & B3 & B4 & B5 & B6 & B7 & B8 & B0 & B9 & B10).
    assert (Hb : TransformData.bufp data1 <> None) by (apply A10; left; reflexivity).
    repeat split; try congruence.
    + rewrite B9, A9. destruct (TransformData.bufp data1); [|contradiction].
      destruct (TransformData.bufp data); reflexivity.
    + intros _. apply B10. right. exact Hb.
Qed.

(** X11.  What a recorded response takes and gives back.  When the body
    has arrived as in the theorem above and the cache write has been
    answered: the transform's own allocation, continuation and output
    buffer are given back, the one cache key is destroyed once and the
    transaction is resumed once, in every case.  When the open succeeded
    and the client request URL could be had, the write continuation's
    allocation, continuation and buffer are given back too and the cache
    vconnection is closed once, after the one write to it.  When the open
    succeeded but the request URL could not be had, nothing is written to
    the cache vconnection, and the write continuation's allocation,
    continuation and buffer are never given back nor the vconnection
    closed. *)
Theorem recorded_response_balance (host : Host) (pre : list (list (list byte)))
    (last : list (list byte)) (opened : option nat) :
  let deliveries := pre ++ [last] in
  let body := body_of deliveries in
  let total := Z.of_nat (List.length body) in
  let taken := match opened with Some _ => 2%nat | None => 1%nat end in
  let written := match opened, client_request_url host with
                 | Some _, Some _ => 1%nat
                 | _, _ => 0%nat
                 end in
  pre = [] \/ brings_bytes last = true ->
  (total < 2 ^ 31)%Z ->
  CacheKeyDigestSet host (sha256 body) = true ->
  exists w',
    record host deliveries total opened (init_world None []) = Ok tt w'
    /\ count is_malloc w' = taken /\ count is_free w' = S written
    /\ count is_any_cont_create w' = taken /\ count is_any_cont_destroy w' = S written
    /\ count is_buffer_create w' = taken /\ count is_buffer_destroy w' = S written
    /\ count is_any_key_create w' = 1%nat /\ count is_any_key_destroy w' = 1%nat
    /\ count is_vconn_write w' = written /\ count is_vconn_close w' = written
    /\ reenables w' = 1%nat.
Proof.
  cbv zeta. intros Hlast Hmax Hset.
  unfold record, http_read_response_hdr.
  unfold bind at 1 2 3 4 5. unfold TSmalloc, TSHttpTxnReenable, call, ret at 1, init_world.
  cbn [resp_location resp_digest trace next_key cont].
  change (TransformData.mk None 0 SHA256.SHA256_Init None) with fresh_transform.
  set (w0 := mkWorld _ _ _ _ _).
  destruct (deliver_bodies_complete host pre last w0 Hlast Hmax Hset)
    as (data & vio & w1 & E & Hb & Hk & _ & _ & _ & _ & _ & Hkc).
  pose proof (deliver_bodies_owned host (pre ++ [last]) fresh_transform
                (fresh_vio (Z.of_nat (List.length (body_of (pre ++ [last]))))) w0) as Ho.
  unfold bind at 1. rewrite E in *. clear E.
  unfold owned_step in Ho. cbn [fst snd] in *.
  destruct Ho as (A1 & A2 & A3 & A4 & A5 & A6 & A7 & A8 & A9 & A10 & _).
  replace (match pre ++ [last] with [] => false | _ :: _ => true end) with true in A10
    by (destruct pre; reflexivity).
  change (TransformData.bufp fresh_transform) with (@None (list byte)) in A10.
  destruct data as [b v c k], w1 as [loc dig tr nk k0].
  cbn [TransformData.bufp TransformData.key] in Hb, Hk. subst b k.
  unfold reenables, count, w0 in *. cbn [trace next_key] in *.
  cbn [filter List.length is_malloc is_free is_any_cont_create is_any_cont_destroy
       is_buffer_create is_buffer_destroy is_any_key_create is_any_key_destroy
       is_vconn_write is_vconn_close is_reenable] in *.
  unfold client_request_url.
  destruct opened as [connp|];
    cbv beta iota zeta delta [transform_handler vconn_writes]; api_t;
    branches ltac:(cbn [r_write r_data r_vio filter is_vconn_write List.length];
                   rewrite ?A8; cbn [Nat.ltb Nat.leb]);
    cbv beta iota zeta delta [transform_handler]; api_t;
    eexists; (split; [reflexivity|]); cbn [trace];
    cbn [filter List.length is_malloc is_free is_any_cont_create is_any_cont_destroy
         is_buffer_create is_buffer_destroy is_any_key_create is_any_key_destroy
         is_vconn_write is_vconn_close is_reenable];
    repeat split; lia.
Qed.

Lemma recorded_response_balance_witness :
  exists w',
    record (example_proxy table_digest_only) [[[x61; x62]]; [[x63]]] 3 (Some 7%nat)
      (init_world None []) = Ok tt w'
    /\ count is_malloc w' = 2%nat /\ count is_free w' = 2%nat
    /\ count is_any_key_create w' = 1%nat /\ count is_any_key_destroy w' = 1%nat
    /\ count is_vconn_write w' = 1%nat /\ count is_vconn_close w' = 1%nat.
Proof.
  destruct (recorded_response_balance (example_proxy table_digest_only)
              [[[x61; x62]]] [[x63]] (Some 7%nat))
    as (w' & E & Hm & Hf & _ & _ & _ & _ & Hkc & Hkd & Hw & Hc & _).
  - right. reflexivity.
  - vm_compute. reflexivity.
  - vm_compute. reflexivity.
  - exists w'. repeat split; assumption.
Defined.
